(** * PixelConvert: the conversion routes of [src/server.js]

    A shallow embedding of the Express handlers of the photo converter:
    the temp file store, [cleanupFiles], the five [/convert/...] routes and
    the error middleware, followed by the properties of the conversion
    pipeline that the specification states about them.

    Conventions.
    - A JavaScript string is a [string]; a [Buffer] is a [list byte]; a
      JavaScript number that the code computes with is a binary64 [float],
      with the rounding of every operation.
    - The file system is a finite map from paths to nodes.  The synchronous
      [fs] calls either return or throw; a throwing call is [Throw].
    - A handler is a computation in a state-and-exception monad over
      [world]: effects made before a throw are kept, as in JavaScript.
    - The libraries the handlers call (nanoid, sharp, pdfkit's image
      embedding) are parameters of the development: every theorem holds
      for every behaviour of them.
    - [res.sendFile] and [res.on("finish", ...)] only register work; it
      runs from the event loop once the handler's synchronous code has
      returned.  [run_request] runs a handler and then that work. *)

From Stdlib Require Import Floats.
From stdpp Require Import gmap strings list fin_maps.
From Stdlib.Strings Require Import Byte Ascii.

(* stdpp's closing tactics clear hypotheses by name. *)
Set Warnings "-clear-no-such-hyp".
(* Decimal literals of the source, such as 0.8, denote the nearest
   binary64 value, as they do in JavaScript. *)
Set Warnings "-inexact-float".

Open Scope string_scope.
Open Scope list_scope.

(** ** Buffers and the temp file store *)

Definition Buffer := list byte.

(** What a path of the store names.  A [RegularFile] is a file of the
    server's own, as multer and sharp write them: the process may read,
    overwrite and remove it.  [fs.unlinkSync] and [fs.readFileSync] throw
    on a directory (EISDIR); [fs.existsSync] is true for it.  A file that
    the operating system refuses to remove for another reason (EPERM,
    EACCES, EBUSY, EROFS) is not a node of this store; the properties of
    [cleanupFiles] below that do not name a node kind are stated on what
    [fs.unlinkSync] returned or threw, whatever the reason. *)
Inductive node :=
| RegularFile (data : Buffer)
| Directory.

Abbreviation store := (gmap string node).

(** A thrown JavaScript error: [multer_code] is [error.code] of a
    [multer.MulterError] and [None] for any other error, [message] is
    [error.message]. *)
Record error := mkError { multer_code : option string; message : string }.

Definition Error (msg : string) : error := mkError None msg.

Inductive result (A : Type) :=
| Ok (a : A)
| Throw (e : error).
Arguments Ok {A} a.
Arguments Throw {A} e.

Definition existsSync (st : store) (p : string) : bool :=
  match st !! p with Some _ => true | None => false end.

Definition readFileSync (st : store) (p : string) : result Buffer :=
  match st !! p with
  | Some (RegularFile data) => Ok data
  | Some Directory => Throw (Error "EISDIR: illegal operation on a directory, read")
  | None => Throw (Error "ENOENT: no such file or directory, open")
  end.

Definition unlinkSync (st : store) (p : string) : result store :=
  match st !! p with
  | Some (RegularFile _) => Ok (delete p st)
  | Some Directory =>
      Throw (Error ("EISDIR: illegal operation on a directory, unlink '" +:+ p +:+ "'"))
  | None =>
      Throw (Error ("ENOENT: no such file or directory, unlink '" +:+ p +:+ "'"))
  end.

(** ** What a response carries *)

(** One paragraph of the Word document: an [ImageRun] with its
    [transformation]. *)
Record paragraph := mkParagraph {
  run_data : Buffer;
  run_width : nat;
  run_height : nat
}.

(** An image drawn by [doc.image(path, x, y, {width, height})]. *)
Record placement := mkPlacement {
  image_path : string;
  at_x : float;
  at_y : float;
  drawn_width : float;
  drawn_height : float
}.

(** A page of the PDF, as the images drawn on it: [doc.addPage()] makes
    a blank page, [doc.image] draws on the current (last) page. *)
Definition page := list placement.

(** The raw pixels of one frame of an image. *)
Definition frame := Buffer.

(** The output of [sharp(...).gif({delay, loop}).toBuffer()]. *)
Record gif := mkGif {
  gif_frames : list frame;
  gif_delay : nat;
  gif_loop : nat
}.

(** A body is kept as the document it serialises. *)
Inductive body :=
| Json (error_message : string)
| ZipBuffer (entries : list (string * Buffer))
| PdfStream (pages : list page)
| DocxBuffer (paragraphs : list paragraph)
| GifBuffer (g : gif)
| FileStream (data : Buffer).

Record response := mkResponse {
  statusCode : nat;
  headers : gmap string string;
  sent : option body
}.

Definition fresh_response : response := mkResponse 200 ∅ None.

(** Work registered during the handler and run afterwards by the event
    loop: the transfer started by [res.sendFile(path)], and the listener
    of [res.on("finish", () => cleanupFiles(paths))]. *)
Inductive deferred :=
| Transfer (file_path : string)
| OnFinish (paths : list string).

(** ** The world a handler runs in

    [doc] is the [PDFDocument] of the request, as its pages.
    [cleanup_calls] and [unlink_calls] are ghost logs: the argument of
    every [cleanupFiles] call and of every [fs.unlinkSync] call, oldest
    first. *)
Record world := mkWorld {
  fs : store;
  ids : nat;
  console : list string;
  cleanup_calls : list (list string);
  unlink_calls : list string;
  doc : list page;
  res : response;
  pending : list deferred
}.

Definition initial_world (st : store) : world :=
  mkWorld st 0 [] [] [] [] fresh_response [].

Definition set_fs (f : store → store) (w : world) : world :=
  mkWorld (f (fs w)) (ids w) (console w) (cleanup_calls w) (unlink_calls w)
          (doc w) (res w) (pending w).
Definition set_ids (f : nat → nat) (w : world) : world :=
  mkWorld (fs w) (f (ids w)) (console w) (cleanup_calls w) (unlink_calls w)
          (doc w) (res w) (pending w).
Definition set_console (f : list string → list string) (w : world) : world :=
  mkWorld (fs w) (ids w) (f (console w)) (cleanup_calls w) (unlink_calls w)
          (doc w) (res w) (pending w).
Definition set_cleanup_calls (f : list (list string) → list (list string))
    (w : world) : world :=
  mkWorld (fs w) (ids w) (console w) (f (cleanup_calls w)) (unlink_calls w)
          (doc w) (res w) (pending w).
Definition set_unlink_calls (f : list string → list string) (w : world) : world :=
  mkWorld (fs w) (ids w) (console w) (cleanup_calls w) (f (unlink_calls w))
          (doc w) (res w) (pending w).
Definition set_doc (f : list page → list page) (w : world) : world :=
  mkWorld (fs w) (ids w) (console w) (cleanup_calls w) (unlink_calls w)
          (f (doc w)) (res w) (pending w).
Definition set_res (f : response → response) (w : world) : world :=
  mkWorld (fs w) (ids w) (console w) (cleanup_calls w) (unlink_calls w)
          (doc w) (f (res w)) (pending w).
Definition set_pending (f : list deferred → list deferred) (w : world) : world :=
  mkWorld (fs w) (ids w) (console w) (cleanup_calls w) (unlink_calls w)
          (doc w) (res w) (f (pending w)).

(** ** The handler monad *)

Definition M (A : Type) : Type := world → result A * world.

Definition ret {A} (a : A) : M A := λ w, (Ok a, w).

Definition bind {A B} (m : M A) (k : A → M B) : M B :=
  λ w, match m w with
       | (Ok a, w') => k a w'
       | (Throw e, w') => (Throw e, w')
       end.

Definition throw {A} (e : error) : M A := λ w, (Throw e, w).

(** [try { m } catch (e) { h e }] *)
Definition try_catch {A} (m : M A) (h : error → M A) : M A :=
  λ w, match m w with
       | (Ok a, w') => (Ok a, w')
       | (Throw e, w') => h e w'
       end.

Definition lift {A} (r : result A) : M A := λ w, (r, w).
Definition get : M world := λ w, (Ok w, w).
Definition modify (f : world → world) : M unit := λ w, (Ok tt, f w).

Notation "'let!' x ':=' m 'in' k" := (bind m (λ x, k))
  (at level 10, x name, m at level 100, k at level 200,
   format "'[v' 'let!'  x  ':='  m  'in' '/' k ']'").
Notation "m ';;' k" := (bind m (λ _, k))
  (at level 100, k at level 200, right associativity,
   format "'[v' m  ';;' '/' k ']'").

Fixpoint forEach {A} (f : A → M unit) (l : list A) : M unit :=
  match l with
  | [] => ret tt
  | x :: rest => f x ;; forEach f rest
  end.

(** ** [fs] calls inside a handler *)

Definition fs_existsSync (p : string) : M bool :=
  let! w := get in ret (existsSync (fs w) p).

Definition fs_readFileSync (p : string) : M Buffer :=
  let! w := get in lift (readFileSync (fs w) p).

Definition fs_unlinkSync (p : string) : M unit :=
  modify (set_unlink_calls (λ l, l ++ [p])) ;;
  let! w := get in
  let! st := lift (unlinkSync (fs w) p) in
  modify (set_fs (λ _, st)).

Definition console_error (line : string) : M unit :=
  modify (set_console (λ l, l ++ [line])).

(** ** [cleanupFiles] (server.js, lines 58-64) *)

(** The callback of [filePaths.forEach]. *)
Definition unlink_if_exists (filePath : string) : M unit :=
  let! present := fs_existsSync filePath in
  if present then fs_unlinkSync filePath else ret tt.

Definition cleanupFiles (filePaths : list string) : M unit :=
  modify (set_cleanup_calls (λ l, l ++ [filePaths])) ;;
  forEach unlink_if_exists filePaths.

(** ** Strings *)

(** The double quote of [attachment; filename="..."]. *)
Definition dquote : string := String (Ascii.ascii_of_nat 34) EmptyString.

Definition attachment (filename : string) : string :=
  "attachment; filename=" +:+ dquote +:+ filename +:+ dquote.

(** [String.prototype.toLowerCase] on the ASCII letters.  No character
    outside ASCII lowercases to a string of ASCII letters that spells an
    allowed format name, so the membership test of the image route is not
    affected by the restriction. *)
Definition lower_ascii (c : ascii) : ascii :=
  let n := Ascii.nat_of_ascii c in
  if (65 <=? n)%nat && (n <=? 90)%nat then Ascii.ascii_of_nat (n + 32) else c.

Fixpoint toLowerCase (s : string) : string :=
  match s with
  | EmptyString => EmptyString
  | String c rest => String (lower_ascii c) (toLowerCase rest)
  end.

(** [path.parse(p).name] (POSIX): the last path component without its
    extension.  The extension starts at the right-most dot of the
    component, unless that dot is its first character or the component
    is [..]. *)
Definition is_slash (c : ascii) : bool := Ascii.eqb c "/".
Definition is_dot (c : ascii) : bool := Ascii.eqb c ".".

Fixpoint skip_while (f : ascii → bool) (cs : list ascii) : list ascii :=
  match cs with
  | c :: rest => if f c then skip_while f rest else cs
  | [] => []
  end.

Fixpoint keep_until (f : ascii → bool) (cs : list ascii) : list ascii :=
  match cs with
  | c :: rest => if f c then [] else c :: keep_until f rest
  | [] => []
  end.

(** The component after the last slash, trailing slashes dropped;
    reversed. *)
Definition rev_base (p : string) : list ascii :=
  keep_until is_slash (skip_while is_slash (rev (String.list_ascii_of_string p))).

Definition parse_base (p : string) : string :=
  String.string_of_list_ascii (rev (rev_base p)).

Definition parse_name (p : string) : string :=
  let rb := rev_base p in
  if existsb is_dot rb then
    (* what is left of the right-most dot *)
    match skip_while (λ c, negb (is_dot c)) rb with
    | _dot :: rev_stem =>
        if bool_decide (rev_stem = []) || String.eqb (parse_base p) ".."
        then parse_base p
        else String.string_of_list_ascii (rev rev_stem)
    | [] => parse_base p
    end
  else parse_base p.

(** ** JSZip

    [zip.file(name, data)] assigns [this.files[name]]: a name already in
    the archive keeps its place and takes the new data.  Entries are
    generated in the insertion order of the names.  (Names here are the
    original names of uploads, which carry an extension and no slash.) *)
Abbreviation JSZip := (list (string * Buffer)).

Fixpoint zip_file (name : string) (data : Buffer) (zip : JSZip) : JSZip :=
  match zip with
  | [] => [(name, data)]
  | (n, d) :: rest =>
      if String.eqb n name then (n, data) :: rest
      else (n, d) :: zip_file name data rest
  end.

Fixpoint zip_lookup (name : string) (zip : JSZip) : option Buffer :=
  match zip with
  | [] => None
  | (n, d) :: rest => if String.eqb n name then Some d else zip_lookup name rest
  end.

(** ** The response object *)

Definition headers_sent : error :=
  Error "Cannot set headers after they are sent to the client".

Definition res_setHeader (name value : string) : M unit :=
  let! w := get in
  match sent (res w) with
  | Some _ => throw headers_sent
  | None =>
      modify (set_res (λ r, mkResponse (statusCode r) (<[name := value]> (headers r)) None))
  end.

Definition res_send (b : body) : M unit :=
  let! w := get in
  match sent (res w) with
  | Some _ => throw headers_sent
  | None => modify (set_res (λ r, mkResponse (statusCode r) (headers r) (Some b)))
  end.

(** [res.status(code).json({ error: msg })].  [res.json] sets the
    Content-Type only when the response has none yet: a type set earlier
    by [res.setHeader] stays. *)
Definition json_headers (h : gmap string string) : gmap string string :=
  match h !! "Content-Type" with
  | Some _ => h
  | None => <["Content-Type" := "application/json; charset=utf-8"]> h
  end.

Definition res_status_json (code : nat) (msg : string) : M unit :=
  let! w := get in
  match sent (res w) with
  | Some _ => throw headers_sent
  | None =>
      modify (set_res (λ r,
        mkResponse code (json_headers (headers r)) (Some (Json msg))))
  end.

Definition res_sendFile (p : string) : M unit :=
  modify (set_pending (λ l, l ++ [Transfer p])).

Definition res_on_finish (paths : list string) : M unit :=
  modify (set_pending (λ l, l ++ [OnFinish paths])).

(** ** The error-handling middleware (server.js, lines 353-363) *)

Definition errorMiddleware (e : error) : M unit :=
  match multer_code e with
  | Some code =>
      if String.eqb code "LIMIT_FILE_SIZE"
      then res_status_json 400 "File too large. Maximum size is 50MB."
      else if String.eqb code "LIMIT_FILE_COUNT"
      then res_status_json 400 "Too many files. Maximum is 10 files."
      else res_status_json 500 (message e)
  | None => res_status_json 500 (message e)
  end.

(** ** The event loop after the handler

    A transfer opens its file only now; when the file is gone, Express
    passes the error to the error middleware.  A [finish] listener runs
    after the response.  An error thrown by deferred work has no handler
    to go to: the world is kept as the work left it. *)
Definition run_deferred (d : deferred) : M unit :=
  match d with
  | Transfer p =>
      let! w := get in
      match sent (res w) with
      | Some _ => ret tt
      | None =>
          try_catch (let! data := fs_readFileSync p in res_send (FileStream data))
                    errorMiddleware
      end
  | OnFinish paths => cleanupFiles paths
  end.

Definition drain (w : world) : world :=
  fold_left (λ w' d, snd (run_deferred d w')) (pending w) (set_pending (λ _, []) w).

Definition run_request (handler : M unit) (st : store) : world :=
  drain (snd (handler (initial_world st))).

(** ** Requests *)

(** A stored upload, as multer hands it over. *)
Record file := mkFile {
  originalname : string;
  path : string
}.

(** [req.files] is [None] when multer left it undefined; [format] is
    [req.params.format] (used by the image route only). *)
Record request := mkRequest {
  files : option (list file);
  format : string
}.

(** [!req.files || req.files.length === 0] *)
Definition no_files (req : request) : bool :=
  match files req with
  | None | Some [] => true
  | Some (_ :: _) => false
  end.

Definition req_files (req : request) : list file := default [] (files req).

(** ** Page layout of the PDF route (server.js, lines 152-165)

    The layout is computed in JavaScript numbers: every division,
    multiplication and subtraction below is the binary64 operation, and
    0.8 is the binary64 value nearest to 8/10. *)

(** The fields of [sharp(...).metadata()] the route reads. *)
Record metadata := mkMetadata {
  width : positive;
  height : positive
}.

(** A pixel count as the JavaScript number it is.  The conversion is
    exact below 2^53, far above the dimensions sharp accepts. *)
Definition number (n : positive) : float :=
  PrimFloat.of_uint63 (Uint63.of_pos n).

(** [Math.min(a, b)]: NaN when either argument is NaN, and -0 below +0. *)
Definition Math_min (a b : float) : float :=
  if (PrimFloat.is_nan a || PrimFloat.is_nan b)%bool then PrimFloat.nan
  else if (a <? b)%float then a
  else if (b <? a)%float then b
  else if PrimFloat.get_sign a then a else b.

Section layout.
Local Open Scope float_scope.
Variables pageWidth pageHeight : float.
Variable imageInfo : metadata.

Definition imgWidth : float := number (width imageInfo).
Definition imgHeight : float := number (height imageInfo).

Definition scaleX : float := pageWidth / imgWidth.
Definition scaleY : float := pageHeight / imgHeight.
Definition scale : float := Math_min scaleX scaleY * 0.8.

Definition scaledWidth : float := imgWidth * scale.
Definition scaledHeight : float := imgHeight * scale.

Definition x : float := (pageWidth - scaledWidth) / 2.
Definition y : float := (pageHeight - scaledHeight) / 2.
End layout.

(** Draw on the current page. *)
Fixpoint draw_on_last (pl : placement) (d : list page) : list page :=
  match d with
  | [] => []
  | [pg] => [pg ++ [pl]]
  | pg :: rest => pg :: draw_on_last pl rest
  end.

(** A loop over [req.files] that updates local variables. *)
Fixpoint for_of {A S} (body : S → A → M S) (s : S) (l : list A) : M S :=
  match l with
  | [] => ret s
  | a :: rest => let! s' := body s a in for_of body s' rest
  end.

(** An entry of [convertedFiles] in the image route. *)
Module Converted.
Record t := make {
  originalName : string;
  convertedName : string;
  path : string
}.
End Converted.

Definition allowedFormats : list string :=
  ["jpeg"; "png"; "webp"; "gif"; "bmp"; "tiff"].

Section routes.
(** *** The collaborators *)

(** [nanoid()]: the n-th identifier handed out. *)
Variable nanoid : nat → string.
(** [sharp(input).metadata()] on the bytes of the input; [None] when
    the promise rejects. *)
Variable sharp_metadata : Buffer → option metadata.
(** Whether pdfkit's [doc.image] can embed the bytes (it throws
    otherwise). *)
Variable pdfkit_image : Buffer → bool.
(** All frames sharp decodes from the bytes; [None] when it rejects. *)
Variable sharp_frames : Buffer → option (list frame).
(** [sharp(input).toFormat(format)]: the re-encoded bytes, [None] when
    it throws or rejects. *)
Variable sharp_toFormat : string → Buffer → option Buffer.
(** [doc.page.width] and [doc.page.height] of a page added with the
    defaults. *)
Variables pageWidth pageHeight : float.
(** [path.join(__dirname, "uploads")] *)
Variable uploadsDir : string.

Definition nanoid_call : M string :=
  let! w := get in
  modify (set_ids S) ;;
  ret (nanoid (ids w)).

Definition sharp_metadata_of (p : string) : M metadata :=
  let! data := fs_readFileSync p in
  match sharp_metadata data with
  | Some info => ret info
  | None => throw (Error "Input file contains unsupported image format")
  end.

Definition doc_addPage : M unit := modify (set_doc (λ d, d ++ [[]])).

Definition doc_image (p : string) (x y w h : float) : M unit :=
  let! data := fs_readFileSync p in
  if pdfkit_image data
  then modify (set_doc (draw_on_last (mkPlacement p x y w h)))
  else throw (Error "Unknown image format.").

(** [doc.end()] with [doc.pipe(res)] in place. *)
Definition doc_end : M unit :=
  let! w := get in res_send (PdfStream (doc w)).

(** [sharp(p, { animated }).gif({ delay, loop }).toBuffer()]: without
    [animated] sharp reads the first frame only. *)
Definition sharp_gif (p : string) (animated : bool) (delay loop : nat) : M gif :=
  let! data := fs_readFileSync p in
  match sharp_frames data with
  | Some frames => ret (mkGif (if animated then frames else take 1 frames) delay loop)
  | None => throw (Error "Input file contains unsupported image format")
  end.

(** [sharp(p).toFormat(format).toFile(outputPath)] *)
Definition sharp_toFile (p format outputPath : string) : M unit :=
  let! data := fs_readFileSync p in
  match sharp_toFormat format data with
  | Some out =>
      let! w := get in
      match fs w !! outputPath with
      | Some Directory => throw (Error "EISDIR: illegal operation on a directory, open")
      | _ => modify (set_fs (λ st, <[outputPath := RegularFile out]> st))
      end
  | None => throw (Error "Input file contains unsupported image format")
  end.

(** The [catch (error)] of every route. *)
Definition route_catch (e : error) : M unit := res_status_json 500 (message e).

(** *** POST /convert/zip (server.js, lines 100-128) *)
(** The callback of [req.files.forEach]. *)
Definition zip_add (acc : JSZip * list string) (file : file)
    : M (JSZip * list string) :=
  let '(zip, filePaths) := acc in
  let! fileData := fs_readFileSync (path file) in
  ret (zip_file (originalname file) fileData zip, filePaths ++ [path file]).

Definition convert_zip (req : request) : M unit :=
  try_catch
    (if no_files req then res_status_json 400 "No files uploaded" else
     let! acc := for_of zip_add ([], []) (req_files req) in
     let '(zip, filePaths) := acc in
     let zipBuffer := ZipBuffer zip in
     let! id := nanoid_call in
     let zipFilename := "converted-photos-" +:+ id +:+ ".zip" in
     res_setHeader "Content-Type" "application/zip" ;;
     res_setHeader "Content-Disposition" (attachment zipFilename) ;;
     res_send zipBuffer ;;
     cleanupFiles filePaths)
    route_catch.

(** *** POST /convert/pdf (server.js, lines 131-184) *)
Definition pdf_file (filePaths : list string) (file : file) : M (list string) :=
  try_catch
    (doc_addPage ;;
     let! imageInfo := sharp_metadata_of (path file) in
     let scaledWidth := scaledWidth pageWidth pageHeight imageInfo in
     let scaledHeight := scaledHeight pageWidth pageHeight imageInfo in
     let x := x pageWidth pageHeight imageInfo in
     let y := y pageWidth pageHeight imageInfo in
     doc_image (path file) x y scaledWidth scaledHeight)
    (λ imageError, console_error "Error processing image:") ;;
  ret (filePaths ++ [path file]).

Definition convert_pdf (req : request) : M unit :=
  try_catch
    (if no_files req then res_status_json 400 "No files uploaded" else
     modify (set_doc (λ _, [])) ;;
     res_setHeader "Content-Type" "application/pdf" ;;
     let! id := nanoid_call in
     res_setHeader "Content-Disposition"
       (attachment ("converted-photos-" +:+ id +:+ ".pdf")) ;;
     let! filePaths := for_of pdf_file [] (req_files req) in
     doc_end ;;
     res_on_finish filePaths)
    route_catch.

(** *** POST /convert/word (server.js, lines 187-241) *)
Definition word_file (acc : list string * list paragraph) (file : file)
    : M (list string * list paragraph) :=
  let '(filePaths, paragraphs) := acc in
  let! paragraphs' :=
    try_catch
      (let! imageBuffer := fs_readFileSync (path file) in
       ret (paragraphs ++ [mkParagraph imageBuffer 400 300]))
      (λ imageError, console_error "Error processing image:" ;; ret paragraphs) in
  ret (filePaths ++ [path file], paragraphs').

Definition convert_word (req : request) : M unit :=
  try_catch
    (if no_files req then res_status_json 400 "No files uploaded" else
     let! acc := for_of word_file ([], []) (req_files req) in
     let '(filePaths, paragraphs) := acc in
     let buffer := DocxBuffer paragraphs in
     res_setHeader "Content-Type"
       "application/vnd.openxmlformats-officedocument.wordprocessingml.document" ;;
     let! id := nanoid_call in
     res_setHeader "Content-Disposition"
       (attachment ("converted-photos-" +:+ id +:+ ".docx")) ;;
     res_send buffer ;;
     cleanupFiles filePaths)
    route_catch.

(** *** POST /convert/gif (server.js, lines 244-275) *)
Definition convert_gif (req : request) : M unit :=
  try_catch
    (if no_files req then res_status_json 400 "No files uploaded" else
     let filePaths := map path (req_files req) in
     let! id := nanoid_call in
     let gifFilename := "converted-photos-" +:+ id +:+ ".gif" in
     let! gifBuffer :=
       match filePaths with
       | [] => throw (Error "Invalid input")
       | first :: _ =>
           if (length (req_files req) =? 1)%nat
           then sharp_gif first false 500 0
           else sharp_gif first true 500 0
       end in
     res_setHeader "Content-Type" "image/gif" ;;
     res_setHeader "Content-Disposition" (attachment gifFilename) ;;
     res_send (GifBuffer gifBuffer) ;;
     cleanupFiles filePaths)
    route_catch.

(** *** POST /convert/image/:format (server.js, lines 278-350) *)
Definition image_file (format : string) (convertedFiles : list Converted.t)
    (file : file) : M (list Converted.t) :=
  try_catch
    (let outputFilename := parse_name (originalname file) +:+ "." +:+ format in
     let! id := nanoid_call in
     let outputPath := uploadsDir +:+ "/" +:+ id +:+ "-" +:+ outputFilename in
     sharp_toFile (path file) format outputPath ;;
     ret (convertedFiles ++
          [Converted.make (originalname file) outputFilename outputPath]))
    (λ conversionError,
       console_error ("Error converting " +:+ originalname file +:+ ":") ;;
       ret convertedFiles).

(** The callback of [convertedFiles.forEach]. *)
Definition zip_add_converted (zip : JSZip) (file : Converted.t) : M JSZip :=
  let! fileData := fs_readFileSync (Converted.path file) in
  ret (zip_file (Converted.convertedName file) fileData zip).

Definition convert_image (req : request) : M unit :=
  try_catch
    (let format := format req in
     if negb (bool_decide (toLowerCase format ∈ allowedFormats))
     then res_status_json 400 "Unsupported format"
     else if no_files req then res_status_json 400 "No files uploaded" else
     let filePaths := map path (req_files req) in
     let! convertedFiles := for_of (image_file format) [] (req_files req) in
     match convertedFiles with
     | [] => res_status_json 500 "No files were successfully converted"
     | [file] =>
         res_setHeader "Content-Type" ("image/" +:+ format) ;;
         res_setHeader "Content-Disposition"
           (attachment (Converted.convertedName file)) ;;
         res_sendFile (Converted.path file) ;;
         cleanupFiles (filePaths ++ [Converted.path file])
     | _ =>
         let! zip := for_of zip_add_converted [] convertedFiles in
         let zipBuffer := ZipBuffer zip in
         let! id := nanoid_call in
         let zipFilename :=
           "converted-images-" +:+ format +:+ "-" +:+ id +:+ ".zip" in
         res_setHeader "Content-Type" "application/zip" ;;
         res_setHeader "Content-Disposition" (attachment zipFilename) ;;
         res_send zipBuffer ;;
         let allPaths := filePaths ++ map Converted.path convertedFiles in
         cleanupFiles allPaths
     end)
    route_catch.
End routes.

(** ** What the loops of the routes compute

    Closed forms used to state the results of the per-file loops. *)

(** The archive after [zip.file] for each entry in turn. *)
Definition zip_all (entries : list (string * Buffer)) (zip : JSZip) : JSZip :=
  fold_left (λ z e, zip_file e.1 e.2 z) entries zip.

(** The bytes of a stored upload, when it can be read. *)
Definition readable (st : store) (file : file) : option Buffer :=
  match readFileSync st (path file) with
  | Ok data => Some data
  | Throw _ => None
  end.

(** The paragraphs of the files that can be read, in input order. *)
Definition word_paragraphs (st : store) (fl : list file) : list paragraph :=
  omap (λ file, (λ data, mkParagraph data 400 300) <$> readable st file) fl.

(** How many images each page of a PDF response holds. *)
Definition images_per_page (r : response) : list nat :=
  match sent r with
  | Some (PdfStream pages) => map length pages
  | _ => []
  end.

(** The path the image route writes the artifact of [file] to, when
    [id] is the identifier drawn for it. *)
Definition artifact_path (uploadsDir id format : string) (file : file) : string :=
  uploadsDir +:+ "/" +:+ id +:+ "-" +:+
  (parse_name (originalname file) +:+ "." +:+ format).

Section pdf_pages.
Variable sharp_metadata : Buffer → option metadata.
Variable pdfkit_image : Buffer → bool.
Variables pageWidth pageHeight : float.

(** Whether [sharp(file.path).metadata()] resolves. *)
Definition decodes (st : store) (file : file) : bool :=
  match readable st file with
  | Some data => bool_decide (is_Some (sharp_metadata data))
  | None => false
  end.

(** The page the PDF route leaves for one file. *)
Definition pdf_page_of (st : store) (file : file) : page :=
  match readable st file with
  | Some data =>
      match sharp_metadata data with
      | Some imageInfo =>
          if pdfkit_image data
          then [mkPlacement (path file)
                  (x pageWidth pageHeight imageInfo)
                  (y pageWidth pageHeight imageInfo)
                  (scaledWidth pageWidth pageHeight imageInfo)
                  (scaledHeight pageWidth pageHeight imageInfo)]
          else []
      | None => []
      end
  | None => []
  end.
End pdf_pages.

(** ** A concrete set of collaborators, for running the routes

    A toy image codec: a buffer is an image when it starts with the byte
    [I]; the next two bytes give width-1 and height-1 (missing bytes
    count as 0); such an image has one frame, the buffer itself, and
    re-encodes to itself.  Pages are US Letter, pdfkit's default. *)
Module Fixture.
Definition nanoid (n : nat) : string :=
  "id" +:+ String.string_of_list_ascii (replicate n "x"%char).

Definition is_image (data : Buffer) : bool :=
  match data with
  | "I"%byte :: _ => true
  | _ => false
  end.

Definition dimension (b : option byte) : positive :=
  Pos.of_succ_nat (from_option Byte.to_nat 0%nat b).

Definition sharp_metadata (data : Buffer) : option metadata :=
  if is_image data
  then Some (mkMetadata (dimension (data !! 1%nat)) (dimension (data !! 2%nat)))
  else None.

Definition pdfkit_image : Buffer → bool := is_image.

Definition sharp_frames (data : Buffer) : option (list frame) :=
  if is_image data then Some [data] else None.

Definition sharp_toFormat (format : string) (data : Buffer) : option Buffer :=
  if is_image data then Some data else None.

Definition pageWidth : float := 612.
Definition pageHeight : float := 792.
Definition uploadsDir : string := "/app/uploads".

Definition convert_zip := convert_zip nanoid.
Definition convert_pdf :=
  convert_pdf nanoid sharp_metadata pdfkit_image pageWidth pageHeight.
Definition convert_word := convert_word nanoid.
Definition convert_gif := convert_gif nanoid sharp_frames.
Definition convert_image := convert_image nanoid sharp_toFormat uploadsDir.

(** Three uploads: two images and one file that does not decode. *)
Definition cat : Buffer := ["I"; "c"; "a"; "t"]%byte.
Definition dog : Buffer := ["I"; "d"; "o"; "g"]%byte.
Definition junk : Buffer := ["j"; "u"; "n"; "k"]%byte.

Definition f_cat : file := mkFile "cat.jpg" "/app/uploads/a-cat.jpg".
Definition f_dog : file := mkFile "dog.png" "/app/uploads/b-dog.png".
Definition f_junk : file := mkFile "junk.png" "/app/uploads/c-junk.png".

Definition uploads : store :=
  <[path f_cat := RegularFile cat]>
    (<[path f_dog := RegularFile dog]>
       (<[path f_junk := RegularFile junk]> ∅)).

(** Two uploads with the same original name. *)
Definition f_photo1 : file := mkFile "photo.png" "/app/uploads/d-photo.png".
Definition f_photo2 : file := mkFile "photo.png" "/app/uploads/e-photo.png".

Definition same_names : store :=
  <[path f_photo1 := RegularFile cat]>
    (<[path f_photo2 := RegularFile dog]> ∅).

(** An upload that is no longer in the store. *)
Definition f_gone : file := mkFile "gone.png" "/app/uploads/f-gone.png".

(** Requests over these uploads. *)
Definition three_files : request := mkRequest (Some [f_cat; f_junk; f_dog]) EmptyString.
Definition two_images : request := mkRequest (Some [f_cat; f_dog]) EmptyString.
Definition one_image : request := mkRequest (Some [f_cat]) "png".
Definition only_junk : request := mkRequest (Some [f_junk]) "png".
Definition only_gone : request := mkRequest (Some [f_gone]) EmptyString.
Definition image_and_gone : request := mkRequest (Some [f_cat; f_gone]) EmptyString.
Definition same_name_twice : request := mkRequest (Some [f_photo1; f_photo2]) EmptyString.
Definition no_files_svg : request := mkRequest (Some []) "svg".

(** What sharp reads from [cat]: 100 x 98 pixels; and where the PDF
    route draws it. *)
Definition cat_info : metadata := mkMetadata 100 98.
Definition cat_placement : placement :=
  mkPlacement (path f_cat)
    (x pageWidth pageHeight cat_info) (y pageWidth pageHeight cat_info)
    (scaledWidth pageWidth pageHeight cat_info)
    (scaledHeight pageWidth pageHeight cat_info).

(** The uploads next to a directory. *)
Definition dir_path : string := "/app/uploads/thumbs".
Definition with_directory : store := <[dir_path := Directory]> uploads.
End Fixture.

(** ** The upload boundary (server.js, lines 28-55) *)

(** The file as multer shows it to [filename] and [fileFilter]. *)
Module Upload.
Record t := make {
  originalname : string;
  mimetype : string
}.
End Upload.

(** [path.extname(p)] (POSIX): from the right-most dot of the last path
    component to its end; empty when there is no dot, when the dot is
    the first character of the component, or when the component is
    [..]. *)
Definition extname (p : string) : string :=
  let rb := rev_base p in
  if existsb is_dot rb then
    match skip_while (λ c, negb (is_dot c)) rb with
    | _dot :: rev_stem =>
        if bool_decide (rev_stem = []) || String.eqb (parse_base p) ".."
        then EmptyString
        else String.string_of_list_ascii ("."%char :: rev (keep_until is_dot rb))
    | [] => EmptyString
    end
  else EmptyString.

Fixpoint starts_with (sub s : string) : bool :=
  match sub, s with
  | EmptyString, _ => true
  | String a sub', String b s' => Ascii.eqb a b && starts_with sub' s'
  | String _ _, EmptyString => false
  end.

(** Whether [sub] occurs somewhere in [s]. *)
Fixpoint contains (sub s : string) : bool :=
  starts_with sub s ||
  match s with
  | EmptyString => false
  | String _ s' => contains sub s'
  end.

(** [const allowedTypes = /jpeg|jpg|png|gif|bmp|webp|tiff/]: the
    alternatives of the pattern, and [allowedTypes.test(s)], which looks
    for one of them anywhere in [s]. *)
Definition allowedTypes : list string :=
  ["jpeg"; "jpg"; "png"; "gif"; "bmp"; "webp"; "tiff"].

Definition allowedTypes_test (s : string) : bool :=
  existsb (λ t, contains t s) allowedTypes.

(** [fileFilter] (lines 44-54): [cb(null, true)] is [Ok true],
    [cb(new Error(...))] is [Throw]. *)
Definition fileFilter (file : Upload.t) : result bool :=
  let extname := allowedTypes_test (toLowerCase (extname (Upload.originalname file))) in
  let mimetype := allowedTypes_test (Upload.mimetype file) in
  if mimetype && extname then Ok true
  else Throw (Error "Only image files are allowed!").

(** [filename] of the disk storage (lines 32-35). *)
Definition storage_filename (nanoid : nat → string) (file : Upload.t) : M string :=
  let! id := nanoid_call nanoid in
  let uniqueName := id +:+ "-" +:+ Upload.originalname file in
  ret uniqueName.

(** ** The artifacts of the image route

    What [convertedFiles] holds when every file converts and [n]
    identifiers were drawn before: one entry per file, in input order,
    the i-th under the identifier drawn for it. *)
Fixpoint artifacts (nanoid : nat → string) (uploadsDir format : string)
    (n : nat) (fl : list file) : list Converted.t :=
  match fl with
  | [] => []
  | f :: rest =>
      Converted.make (originalname f)
        (parse_name (originalname f) +:+ "." +:+ format)
        (artifact_path uploadsDir (nanoid n) format f)
      :: artifacts nanoid uploadsDir format (S n) rest
  end.

(** The store after [toFile] wrote each artifact. *)
Fixpoint write_all (cs : list Converted.t) (outs : list Buffer) (st : store) : store :=
  match cs, outs with
  | c :: cs', out :: outs' =>
      write_all cs' outs' (<[Converted.path c := RegularFile out]> st)
  | _, _ => st
  end.

(** The file can be read and sharp re-encodes it to [out]. *)
Definition converts (sharp_toFormat : string → Buffer → option Buffer)
    (format : string) (st : store) (f : file) (out : Buffer) : Prop :=
  ∃ data, st !! path f = Some (RegularFile data) ∧
          sharp_toFormat format data = Some out.

(** Two identifiers of nanoid's length, handed out in turn. *)
Definition alternating_ids (n : nat) : string :=
  if Nat.even n then "V1StGXR8_Z5jdHi6B-myT" else "3IBgupmUiD5DdPH0cFtPe".

(** ** Shapes of outcomes *)

(** A run that only answered: an error body with the given status, the
    store as it was, no cleanup, no deletion, no identifier drawn. *)
Definition answered_only (code : nat) (msg : string) (st : store) (w : world) : Prop :=
  statusCode (res w) = code ∧
  sent (res w) = Some (Json msg) ∧
  fs w = st ∧
  cleanup_calls w = [] ∧
  unlink_calls w = [] ∧
  ids w = 0%nat.

(** The request has been answered, with one of the three status codes
    the server uses. *)
Definition answered (w : world) : Prop :=
  (∃ b, sent (res w) = Some b) ∧ statusCode (res w) ∈ [200; 400; 500]%nat.

(** No path outside [touched] differs from what the store held. *)
Definition others_untouched (touched : list string) (st : store) (w : world) : Prop :=
  ∀ q, q ∉ touched → fs w !! q = st !! q.

(** The uploads of a request are gone from the store and nothing else
    has changed. *)
Definition uploads_removed (fl : list file) (st : store) (w : world) : Prop :=
  (∀ f, f ∈ fl → fs w !! path f = None) ∧
  (∀ q, q ∉ map path fl → fs w !! q = st !! q).

(** ** The layout over a range of image sizes *)

(** [f] holds of the [n] positive numbers from [p] on. *)
Fixpoint upto (n : nat) (p : positive) (f : positive → bool) : bool :=
  match n with
  | O => true
  | S n' => f p && upto n' (Pos.succ p) f
  end.

(** The drawn size is within 80% of the page up to one part in 10^15. *)
Definition fits_up_to_rounding (pageWidth pageHeight : float)
    (imageInfo : metadata) : bool :=
  ((scaledWidth pageWidth pageHeight imageInfo
      <=? 0.8 * pageWidth * (1 + 1e-15))%float
   && (scaledHeight pageWidth pageHeight imageInfo
         <=? 0.8 * pageHeight * (1 + 1e-15))%float).

(** * Properties *)

(** ** [path.parse(...).name] and [toLowerCase] on examples *)

Example parse_name_jpg : parse_name "cat.jpg" = "cat".
Proof. reflexivity. Qed.

Example parse_name_two_dots : parse_name "archive.tar.gz" = "archive.tar".
Proof. reflexivity. Qed.

Example parse_name_leading_dot : parse_name ".hidden" = ".hidden".
Proof. reflexivity. Qed.

Example parse_name_directory : parse_name "/app/uploads/x.png" = "x".
Proof. reflexivity. Qed.

Example toLowerCase_PNG : toLowerCase "PnG" = "png".
Proof. reflexivity. Qed.

(** ** Stepping through the monad *)

Ltac step :=
  unfold fs_unlinkSync, fs_existsSync, fs_readFileSync,
    console_error, res_setHeader, res_send, res_status_json, res_sendFile,
    res_on_finish, route_catch, bind, ret, get, modify, lift, throw, try_catch,
    set_fs, set_ids, set_console, set_cleanup_calls, set_unlink_calls, set_doc,
    set_res, set_pending;
  cbn [fst snd fs ids console cleanup_calls unlink_calls doc res pending
       statusCode headers sent].

Lemma forEach_app {A} (f : A → M unit) (l1 l2 : list A) (w : world) :
  forEach f (l1 ++ l2) w = (forEach f l1 ;; forEach f l2) w.
Proof.
  revert w. induction l1 as [|a l1 IH]; intros w; cbn [forEach app].
  - reflexivity.
  - unfold bind in *. destruct (f a w) as [[[]|e] w1]; [|reflexivity].
    apply IH.
Qed.

(** ** [cleanupFiles] *)

(** When no listed path is a directory, the loop returns: the listed
    paths are gone, the others untouched, and [fs.unlinkSync] was called
    on exactly the listed paths that existed. *)
Lemma cleanup_loop_ok (paths : list string) (w : world) :
  Forall (λ p, fs w !! p ≠ Some Directory) paths →
  ∃ st' u,
    forEach unlink_if_exists paths w =
      (Ok tt, mkWorld st' (ids w) (console w) (cleanup_calls w)
                      (unlink_calls w ++ u) (doc w) (res w) (pending w)) ∧
    (∀ q, st' !! q = if decide (q ∈ paths) then None else fs w !! q) ∧
    (∀ q, q ∈ u ↔ q ∈ paths ∧ is_Some (fs w !! q)).
Proof.
  revert w. induction paths as [|p rest IH]; intros w Hdir.
  - exists (fs w), []. destruct w. cbn. rewrite app_nil_r.
    split; [reflexivity|]. split; intros q.
    + rewrite decide_False; [done | apply not_elem_of_nil].
    + set_solver.
  - apply Forall_cons in Hdir as [Hp Hrest]. cbn [forEach].
    destruct w as [st n c cc uc d r pnd]; cbn in Hp, Hrest |- *.
    unfold unlink_if_exists at 1. step. unfold existsSync, unlinkSync.
    destruct (st !! p) as [[data|]|] eqn:Hlook; [|done|]; step.
    + rewrite Hlook. step.
      edestruct (IH (mkWorld (delete p st) n c cc (uc ++ [p]) d r pnd))
        as (st' & u & Hrun & Hfs & Hu).
      { cbn. eapply Forall_impl; [exact Hrest|]. intros q Hq.
        rewrite lookup_delete. case_decide; [done|exact Hq]. }
      cbn in Hrun, Hfs, Hu. exists st', (p :: u).
      rewrite Hrun, <- app_assoc. split; [reflexivity|]. split; intros q.
      * rewrite Hfs, lookup_delete.
        repeat case_decide; try done; subst;
          rewrite elem_of_cons in *; naive_solver.
      * rewrite elem_of_cons, Hu, lookup_delete, elem_of_cons.
        case_decide as Hpq.
        -- subst q. rewrite Hlook.
           split; [intros [_|[_ []%is_Some_None]]; eauto | eauto].
        -- split; [intros [->|?]; [done|tauto] | intros [[->|?] ?]; [done|tauto]].
    + destruct (IH (mkWorld st n c cc uc d r pnd) Hrest)
        as (st' & u & Hrun & Hfs & Hu).
      cbn in Hrun, Hfs, Hu. exists st', u. rewrite Hrun.
      split; [reflexivity|]. split; intros q.
      * rewrite Hfs.
        repeat case_decide; try done; rewrite elem_of_cons in *; naive_solver.
      * rewrite Hu, elem_of_cons. split; [tauto|].
        intros [[->|?] Hs]; [|tauto]. rewrite Hlook in Hs.
        by apply is_Some_None in Hs.
Qed.

Lemma cleanupFiles_ok (paths : list string) (w : world) :
  Forall (λ p, fs w !! p ≠ Some Directory) paths →
  ∃ st' u,
    cleanupFiles paths w =
      (Ok tt, mkWorld st' (ids w) (console w) (cleanup_calls w ++ [paths])
                      (unlink_calls w ++ u) (doc w) (res w) (pending w)) ∧
    (∀ q, st' !! q = if decide (q ∈ paths) then None else fs w !! q) ∧
    (∀ q, q ∈ u ↔ q ∈ paths ∧ is_Some (fs w !! q)).
Proof.
  intros Hdir. destruct w as [st n c cc uc d r pnd]. unfold cleanupFiles. step.
  destruct (cleanup_loop_ok paths (mkWorld st n c (cc ++ [paths]) uc d r pnd) Hdir)
    as (st' & u & Hrun & Hfs & Hu).
  exists st', u. rewrite Hrun. auto.
Qed.

(** A directory among the paths: the loop throws at the first one, after
    deleting what comes before it, and goes no further. *)
Lemma cleanup_loop_throw (pre post : list string) (d : string) (w : world) :
  Forall (λ p, fs w !! p ≠ Some Directory) pre →
  fs w !! d = Some Directory →
  ∃ st' u,
    forEach unlink_if_exists (pre ++ d :: post) w =
      (Throw (Error ("EISDIR: illegal operation on a directory, unlink '" +:+ d +:+ "'")),
       mkWorld st' (ids w) (console w) (cleanup_calls w)
               ((unlink_calls w ++ u) ++ [d]) (doc w) (res w) (pending w)) ∧
    (∀ q, st' !! q = if decide (q ∈ pre) then None else fs w !! q) ∧
    (∀ q, q ∈ u ↔ q ∈ pre ∧ is_Some (fs w !! q)).
Proof.
  intros Hpre Hd.
  destruct (cleanup_loop_ok pre w Hpre) as (st' & u & Hrun & Hfs & Hu).
  exists st', u. rewrite forEach_app. unfold bind at 1. rewrite Hrun.
  assert (st' !! d = Some Directory) as Hd'.
  { rewrite Hfs. case_decide as Hin; [|exact Hd].
    rewrite Forall_forall in Hpre. by destruct (Hpre d Hin). }
  cbn [forEach]. unfold unlink_if_exists at 1. step.
  unfold existsSync, unlinkSync. rewrite Hd'. step. rewrite Hd'. auto.
Qed.

(** ** C8: cleanup when a deletion throws *)

(** [cleanupFiles] is its loop, run after the call is logged, and the
    loop does not read the log. *)
Lemma cleanupFiles_loop (paths : list string) (w : world) :
  cleanupFiles paths w
  = forEach unlink_if_exists paths (set_cleanup_calls (λ l, l ++ [paths]) w).
Proof. destruct w. reflexivity. Qed.

Lemma unlink_if_exists_log (g : list (list string) → list (list string))
    (p : string) (w : world) :
  unlink_if_exists p (set_cleanup_calls g w)
  = ((unlink_if_exists p w).1, set_cleanup_calls g (unlink_if_exists p w).2).
Proof.
  destruct w as [st n c cc uc dc r pnd]. unfold unlink_if_exists. step.
  destruct (existsSync st p); step; [|reflexivity].
  destruct (unlinkSync st p); reflexivity.
Qed.

Lemma cleanup_loop_log (g : list (list string) → list (list string))
    (paths : list string) (w : world) :
  forEach unlink_if_exists paths (set_cleanup_calls g w)
  = ((forEach unlink_if_exists paths w).1,
     set_cleanup_calls g (forEach unlink_if_exists paths w).2).
Proof.
  revert w. induction paths as [|p rest IH]; intros w; cbn [forEach].
  - reflexivity.
  - unfold bind. rewrite unlink_if_exists_log.
    destruct (unlink_if_exists p w) as [[[]|e] w1]; cbn [fst snd].
    + apply IH.
    + reflexivity.
Qed.

(** A directory listed before an upload: [fs.unlinkSync] throws on it,
    [cleanupFiles] ends there, and the upload listed after it is neither
    attempted nor removed. *)
Example cleanupFiles_abandons_remaining_paths :
  (cleanupFiles [Fixture.dir_path; path Fixture.f_cat]
     (initial_world Fixture.with_directory)).1
    = Throw (Error "EISDIR: illegal operation on a directory, unlink '/app/uploads/thumbs'") ∧
  unlink_calls (cleanupFiles [Fixture.dir_path; path Fixture.f_cat]
                  (initial_world Fixture.with_directory)).2
    = [Fixture.dir_path] ∧
  fs (cleanupFiles [Fixture.dir_path; path Fixture.f_cat]
        (initial_world Fixture.with_directory)).2 !! path Fixture.f_cat
    = Some (RegularFile Fixture.cat).
Proof. repeat split; vm_compute; reflexivity. Qed.

(** C8 (the code differs from the claim).  [cleanupFiles] has no [try]
    around [fs.unlinkSync], so a deletion that throws ends the cleanup.
    Let the cleanup of the paths listed before [d] return, and let
    [fs.unlinkSync] then throw on the existing path [d], for whatever
    reason.  Then [cleanupFiles] on the whole list throws that error; the
    failing call is the last deletion attempted, and every path listed
    after [d] is left as it was, without a deletion attempt. *)
Theorem cleanupFiles_throw_abandons_rest
    (pre post : list string) (d : string) (w w1 : world) (e : error) :
  cleanupFiles pre w = (Ok tt, w1) →
  existsSync (fs w1) d = true →
  unlinkSync (fs w1) d = Throw e →
  ∃ w2,
    cleanupFiles (pre ++ d :: post) w = (Throw e, w2) ∧
    fs w2 = fs w1 ∧
    unlink_calls w2 = unlink_calls w1 ++ [d].
Proof.
  intros Hpre Hex Hth. rewrite cleanupFiles_loop, cleanup_loop_log in Hpre.
  destruct (forEach unlink_if_exists pre w) as [r w0] eqn:Hloop.
  cbn [fst snd] in Hpre. injection Hpre as -> <-.
  assert (forEach unlink_if_exists (pre ++ d :: post) w
          = (Throw e, set_unlink_calls (λ l, l ++ [d]) w0)) as Hrun.
  { rewrite forEach_app. unfold bind at 1. rewrite Hloop.
    destruct w0 as [st n c cc uc dc rs pnd]. cbn in Hex, Hth.
    cbn [forEach]. unfold unlink_if_exists at 1. step.
    rewrite Hex. step. by rewrite Hth. }
  rewrite cleanupFiles_loop, cleanup_loop_log, Hrun.
  eexists. split; [reflexivity|]. by destruct w0.
Qed.

Lemma cleanupFiles_throw_abandons_rest_witness :
  cleanupFiles [path Fixture.f_cat; "/app/uploads/gone"]
               (initial_world Fixture.with_directory)
    = (Ok tt, (cleanupFiles [path Fixture.f_cat; "/app/uploads/gone"]
                 (initial_world Fixture.with_directory)).2) ∧
  existsSync (fs (cleanupFiles [path Fixture.f_cat; "/app/uploads/gone"]
                    (initial_world Fixture.with_directory)).2)
             Fixture.dir_path = true ∧
  unlinkSync (fs (cleanupFiles [path Fixture.f_cat; "/app/uploads/gone"]
                    (initial_world Fixture.with_directory)).2)
             Fixture.dir_path
    = Throw (Error "EISDIR: illegal operation on a directory, unlink '/app/uploads/thumbs'") ∧
  ∃ w2,
    cleanupFiles ([path Fixture.f_cat; "/app/uploads/gone"]
                    ++ Fixture.dir_path :: [path Fixture.f_dog])
                 (initial_world Fixture.with_directory)
      = (Throw (Error "EISDIR: illegal operation on a directory, unlink '/app/uploads/thumbs'"),
         w2) ∧
    fs w2 = fs (cleanupFiles [path Fixture.f_cat; "/app/uploads/gone"]
                  (initial_world Fixture.with_directory)).2 ∧
    unlink_calls w2
      = unlink_calls (cleanupFiles [path Fixture.f_cat; "/app/uploads/gone"]
                        (initial_world Fixture.with_directory)).2
        ++ [Fixture.dir_path].
Proof.
  assert (cleanupFiles [path Fixture.f_cat; "/app/uploads/gone"]
            (initial_world Fixture.with_directory)
          = (Ok tt, (cleanupFiles [path Fixture.f_cat; "/app/uploads/gone"]
                       (initial_world Fixture.with_directory)).2)) as Hpre.
  { vm_compute. reflexivity. }
  assert (existsSync (fs (cleanupFiles [path Fixture.f_cat; "/app/uploads/gone"]
                            (initial_world Fixture.with_directory)).2)
                     Fixture.dir_path = true) as Hex.
  { vm_compute. reflexivity. }
  assert (unlinkSync (fs (cleanupFiles [path Fixture.f_cat; "/app/uploads/gone"]
                            (initial_world Fixture.with_directory)).2)
                     Fixture.dir_path
          = Throw (Error "EISDIR: illegal operation on a directory, unlink '/app/uploads/thumbs'"))
    as Hth.
  { vm_compute. reflexivity. }
  split; [exact Hpre|]. split; [exact Hex|]. split; [exact Hth|].
  exact (cleanupFiles_throw_abandons_rest
           [path Fixture.f_cat; "/app/uploads/gone"] [path Fixture.f_dog]
           Fixture.dir_path (initial_world Fixture.with_directory) _ _
           Hpre Hex Hth).
Defined.

(** ** JSZip archives *)

Lemma zip_lookup_file (name n : string) (d : Buffer) (zip : JSZip) :
  zip_lookup name (zip_file n d zip) =
    if decide (n = name) then Some d else zip_lookup name zip.
Proof.
  induction zip as [|[n' d'] zip IH]; cbn.
  - destruct (String.eqb_spec n name); case_decide; done.
  - destruct (String.eqb_spec n' n) as [->|Hne]; cbn.
    + destruct (String.eqb_spec n name); case_decide; done.
    + rewrite IH. destruct (String.eqb_spec n' name) as [->|]; [|done].
      by rewrite decide_False.
Qed.

Lemma zip_file_names (name n : string) (d : Buffer) (zip : JSZip) :
  name ∈ (zip_file n d zip).*1 ↔ name = n ∨ name ∈ zip.*1.
Proof.
  induction zip as [|[n' d'] zip IH]; cbn.
  - rewrite list_elem_of_singleton, elem_of_nil. tauto.
  - destruct (String.eqb_spec n' n) as [->|Hne]; cbn.
    + rewrite !elem_of_cons. tauto.
    + rewrite !elem_of_cons, IH. tauto.
Qed.

Lemma zip_file_NoDup (n : string) (d : Buffer) (zip : JSZip) :
  NoDup zip.*1 → NoDup (zip_file n d zip).*1.
Proof.
  induction zip as [|[n' d'] zip IH]; cbn; intros Hnd.
  - apply NoDup_singleton.
  - apply NoDup_cons in Hnd as [Hnin Hnd].
    destruct (String.eqb_spec n' n) as [->|Hne]; cbn.
    + by apply NoDup_cons.
    + apply NoDup_cons. split; [|auto].
      rewrite zip_file_names. intros [?|?]; done.
Qed.

Lemma zip_file_fresh (n : string) (d : Buffer) (zip : JSZip) :
  n ∉ zip.*1 → zip_file n d zip = zip ++ [(n, d)].
Proof.
  induction zip as [|[n' d'] zip IH]; cbn; intros Hnin; [done|].
  apply not_elem_of_cons in Hnin as [Hne Hnin].
  destruct (String.eqb_spec n' n) as [->|_]; [done|]. by rewrite IH.
Qed.

Lemma zip_lookup_app (name : string) (z1 z2 : JSZip) :
  zip_lookup name (z1 ++ z2) =
    match zip_lookup name z1 with
    | Some d => Some d
    | None => zip_lookup name z2
    end.
Proof.
  induction z1 as [|[n d] z1 IH]; cbn; [done|].
  by destruct (String.eqb n name).
Qed.

(** Looking a name up after adding the entries in turn gives the data of
    the last entry with that name. *)
Lemma zip_all_lookup (name : string) (entries : list (string * Buffer)) (zip : JSZip) :
  zip_lookup name (zip_all entries zip) =
    match zip_lookup name (rev entries) with
    | Some d => Some d
    | None => zip_lookup name zip
    end.
Proof.
  revert zip. induction entries as [|[n d] entries IH]; intros zip; cbn; [done|].
  unfold zip_all in *. cbn. rewrite IH, zip_lookup_app, zip_lookup_file. cbn.
  destruct (zip_lookup name (rev entries)); [done|].
  destruct (String.eqb_spec n name); case_decide; done.
Qed.

Lemma zip_all_names (name : string) (entries : list (string * Buffer)) (zip : JSZip) :
  name ∈ (zip_all entries zip).*1 ↔ name ∈ entries.*1 ∨ name ∈ zip.*1.
Proof.
  revert zip. induction entries as [|[n d] entries IH]; intros zip; cbn.
  - rewrite elem_of_nil. tauto.
  - unfold zip_all in *. cbn. rewrite IH, zip_file_names, elem_of_cons. tauto.
Qed.

Lemma zip_all_NoDup (entries : list (string * Buffer)) (zip : JSZip) :
  NoDup zip.*1 → NoDup (zip_all entries zip).*1.
Proof.
  revert zip. induction entries as [|[n d] entries IH]; intros zip Hnd; [done|].
  apply IH. by apply zip_file_NoDup.
Qed.

Lemma zip_all_distinct (entries : list (string * Buffer)) (zip : JSZip) :
  NoDup (zip.*1 ++ entries.*1) → zip_all entries zip = zip ++ entries.
Proof.
  revert zip. induction entries as [|[n d] entries IH]; intros zip Hnd; cbn.
  - by rewrite app_nil_r.
  - cbn in Hnd. unfold zip_all in *. cbn.
    rewrite zip_file_fresh.
    + rewrite IH; [by rewrite <- app_assoc|].
      rewrite fmap_app. cbn. by rewrite <- app_assoc.
    + apply NoDup_app in Hnd as (_ & Hdis & _). intros Hin.
      apply (Hdis n Hin). left.
Qed.

(** ** The per-file loops *)

Lemma draw_on_last_snoc (pl : placement) (d : list page) (pg : page) :
  draw_on_last pl (d ++ [pg]) = d ++ [pg ++ [pl]].
Proof.
  induction d as [|pg' d IH]; [done|].
  cbn [app draw_on_last]. rewrite IH. by destruct d.
Qed.

Section loops.
Variable nanoid : nat → string.
Variable sharp_metadata : Buffer → option metadata.
Variable pdfkit_image : Buffer → bool.
Variable sharp_toFormat : string → Buffer → option Buffer.
Variables pageWidth pageHeight : float.
Variable uploadsDir : string.

(** The ZIP loop over readable files adds every file under its
    original name and tracks every path; the world is unchanged. *)
Lemma zip_loop_ok (fl : list file) (datas : list Buffer)
    (z : JSZip) (filePaths : list string) (w : world) :
  Forall2 (λ f d, fs w !! path f = Some (RegularFile d)) fl datas →
  for_of zip_add (z, filePaths) fl w =
    (Ok (zip_all (zip (originalname <$> fl) datas) z, filePaths ++ map path fl), w).
Proof.
  intros Hall. revert z filePaths.
  induction Hall as [|f d fl datas Hf _ IH]; intros z filePaths; cbn.
  - by rewrite app_nil_r.
  - unfold zip_add at 1. step. unfold readFileSync. rewrite Hf.
    rewrite IH, <- app_assoc. reflexivity.
Qed.

(** The PDF loop never throws: it leaves one page per file, blank when
    the file did not make it onto the page, and tracks every path. *)
Lemma pdf_loop (fl : list file) (filePaths : list string) (w : world) :
  ∃ c',
    for_of (pdf_file sharp_metadata pdfkit_image pageWidth pageHeight)
           filePaths fl w =
      (Ok (filePaths ++ map path fl),
       mkWorld (fs w) (ids w) c' (cleanup_calls w) (unlink_calls w)
         (doc w ++ map (pdf_page_of sharp_metadata pdfkit_image
                          pageWidth pageHeight (fs w)) fl)
         (res w) (pending w)).
Proof.
  revert filePaths w. induction fl as [|f fl IH]; intros filePaths w.
  - exists (console w). destruct w. cbn. by rewrite !app_nil_r.
  - destruct w as [st n c cc uc d r pnd]. cbn [for_of].
    unfold pdf_file at 1. unfold doc_addPage, sharp_metadata_of, doc_image.
    step. cbn [map]. unfold pdf_page_of at 1. unfold readable.
    destruct (readFileSync st (path f)) as [data|e] eqn:Hread; step.
    + destruct (sharp_metadata data) as [info|]; step.
      * rewrite Hread. destruct (pdfkit_image data); step.
        -- edestruct IH as [c' ->]. exists c'. cbn.
           by rewrite draw_on_last_snoc, <- !app_assoc.
        -- edestruct IH as [c' ->]. exists c'. cbn.
           by rewrite <- !app_assoc.
      * edestruct IH as [c' ->]. exists c'. cbn. by rewrite <- !app_assoc.
    + edestruct IH as [c' ->]. exists c'. cbn. by rewrite <- !app_assoc.
Qed.

(** The Word loop never throws: one paragraph per readable file, and
    every path tracked. *)
Lemma word_loop (fl : list file) (filePaths : list string)
    (paragraphs : list paragraph) (w : world) :
  ∃ c',
    for_of word_file (filePaths, paragraphs) fl w =
      (Ok (filePaths ++ map path fl, paragraphs ++ word_paragraphs (fs w) fl),
       mkWorld (fs w) (ids w) c' (cleanup_calls w) (unlink_calls w)
               (doc w) (res w) (pending w)).
Proof.
  revert filePaths paragraphs w.
  induction fl as [|f fl IH]; intros filePaths paragraphs w.
  - exists (console w). destruct w. cbn. by rewrite !app_nil_r.
  - destruct w as [st n c cc uc d r pnd]. cbn [for_of].
    unfold word_file at 1. step.
    unfold word_paragraphs. cbn [omap list_omap]. unfold readable at 1.
    destruct (readFileSync st (path f)) as [data|e] eqn:Hread; step.
    + edestruct IH as [c' ->]. exists c'. cbn.
      by rewrite <- !app_assoc.
    + edestruct IH as [c' ->]. exists c'. cbn.
      by rewrite <- !app_assoc.
Qed.

(** When no file converts, the image loop collects nothing and leaves
    the store as it was. *)
Local Ltac use_IH :=
  match goal with
  | IH : ∀ w, Forall _ _ → _, H : Forall _ _ |- context [for_of _ _ _ ?w'] =>
      let c' := fresh "c" in
      destruct (IH w' H) as [c' ->]; exists c'; cbn;
      by rewrite Nat.add_succ_r
  end.

Lemma image_loop_none (format : string) (fl : list file)
    (convertedFiles : list Converted.t) (w : world) :
  Forall (λ f, ∀ data, fs w !! path f = Some (RegularFile data) →
                       sharp_toFormat format data = None) fl →
  ∃ c',
    for_of (image_file nanoid sharp_toFormat uploadsDir format)
           convertedFiles fl w =
      (Ok convertedFiles,
       mkWorld (fs w) (ids w + length fl) c' (cleanup_calls w)
               (unlink_calls w) (doc w) (res w) (pending w)).
Proof.
  revert w. induction fl as [|f fl IH]; intros w Hnone.
  - exists (console w). destruct w. cbn. by rewrite Nat.add_0_r.
  - apply Forall_cons in Hnone as [Hf Hnone].
    destruct w as [st n c cc uc d r pnd]. cbn in Hf, Hnone. cbn [for_of].
    unfold image_file at 1. unfold nanoid_call, sharp_toFile. step.
    unfold readFileSync.
    destruct (st !! path f) as [[data|]|] eqn:Hlook; step.
    + rewrite (Hf data eq_refl). step. use_IH.
    + use_IH.
    + use_IH.
Qed.
End loops.

(** ** Frame of [cleanupFiles]

    Whatever the store holds, [cleanupFiles] touches only the store and
    the ghost logs, and logs its call once. *)
Lemma cleanup_loop_frame (paths : list string) (w : world) :
  ∃ r st' uc',
    forEach unlink_if_exists paths w =
      (r, mkWorld st' (ids w) (console w) (cleanup_calls w) uc'
                  (doc w) (res w) (pending w)).
Proof.
  revert w. induction paths as [|p rest IH]; intros w.
  - exists (Ok tt), (fs w), (unlink_calls w). by destruct w.
  - destruct w as [st n c cc uc d r pnd]. cbn [forEach].
    unfold unlink_if_exists at 1. step. unfold existsSync, unlinkSync.
    destruct (st !! p) as [[data|]|] eqn:Hlook; step; rewrite ?Hlook; step.
    + destruct (IH (mkWorld (delete p st) n c cc (uc ++ [p]) d r pnd))
        as (r' & st' & uc' & ->). by eexists _, _, _.
    + by eexists _, _, _.
    + destruct (IH (mkWorld st n c cc uc d r pnd)) as (r' & st' & uc' & ->).
      by eexists _, _, _.
Qed.

Lemma cleanupFiles_frame (paths : list string) (w : world) :
  ∃ r st' uc',
    cleanupFiles paths w =
      (r, mkWorld st' (ids w) (console w) (cleanup_calls w ++ [paths]) uc'
                  (doc w) (res w) (pending w)).
Proof.
  destruct w as [st n c cc uc d r pnd]. unfold cleanupFiles. step.
  destruct (cleanup_loop_frame paths (mkWorld st n c (cc ++ [paths]) uc d r pnd))
    as (r' & st' & uc' & ->).
  destruct r' as [[]|e]; by eexists _, _, _.
Qed.

Lemma some_files (req : request) (fl : list file) :
  files req = Some fl → fl ≠ [] → no_files req = false ∧ req_files req = fl.
Proof.
  unfold no_files, req_files. intros -> Hne. by destruct fl.
Qed.

(** ** The routes, run from a fresh response *)

Section route_results.
Variable nanoid : nat → string.
Variable sharp_metadata : Buffer → option metadata.
Variable pdfkit_image : Buffer → bool.
Variable sharp_frames : Buffer → option (list frame).
Variable sharp_toFormat : string → Buffer → option Buffer.
Variables pageWidth pageHeight : float.
Variable uploadsDir : string.

(** The PDF route answers 200 with one page per file and cleans up once,
    from the [finish] listener, with every input path. *)
Lemma convert_pdf_result (req : request) (fl : list file) (st : store) :
  files req = Some fl → fl ≠ [] →
  sent (res (run_request
    (convert_pdf nanoid sharp_metadata pdfkit_image pageWidth pageHeight req) st))
    = Some (PdfStream (map (pdf_page_of sharp_metadata pdfkit_image
                              pageWidth pageHeight st) fl)) ∧
  statusCode (res (run_request
    (convert_pdf nanoid sharp_metadata pdfkit_image pageWidth pageHeight req) st))
    = 200 ∧
  cleanup_calls (run_request
    (convert_pdf nanoid sharp_metadata pdfkit_image pageWidth pageHeight req) st)
    = [map path fl].
Proof.
  intros Hfiles Hne. destruct (some_files req fl Hfiles Hne) as [Hno Hfl].
  unfold run_request, convert_pdf, initial_world, fresh_response, nanoid_call,
    doc_end.
  rewrite Hno, Hfl. step.
  edestruct pdf_loop as [c' ->]. step.
  unfold drain. cbn [pending fold_left app run_deferred].
  edestruct cleanupFiles_frame as (r' & st' & uc' & ->). done.
Qed.

(** The Word route answers 200 with the paragraphs of the readable files
    and cleans up once with every input path. *)
Lemma convert_word_result (req : request) (fl : list file) (st : store) :
  files req = Some fl → fl ≠ [] →
  sent (res (run_request (convert_word nanoid req) st))
    = Some (DocxBuffer (word_paragraphs st fl)) ∧
  statusCode (res (run_request (convert_word nanoid req) st)) = 200 ∧
  cleanup_calls (run_request (convert_word nanoid req) st) = [map path fl].
Proof.
  intros Hfiles Hne. destruct (some_files req fl Hfiles Hne) as [Hno Hfl].
  unfold run_request, convert_word, initial_world, fresh_response, nanoid_call.
  rewrite Hno, Hfl. step.
  edestruct word_loop as [c' ->]. step.
  edestruct cleanupFiles_frame as (r' & st' & uc' & ->).
  destruct r' as [[]|e]; done.
Qed.

(** The ZIP route over readable files answers 200 with the archive built
    by [zip.file] for each file in turn, and cleans up once. *)
Lemma convert_zip_result (req : request) (fl : list file) (datas : list Buffer)
    (st : store) :
  files req = Some fl → fl ≠ [] →
  Forall2 (λ f d, st !! path f = Some (RegularFile d)) fl datas →
  sent (res (run_request (convert_zip nanoid req) st))
    = Some (ZipBuffer (zip_all (zip (originalname <$> fl) datas) [])) ∧
  statusCode (res (run_request (convert_zip nanoid req) st)) = 200 ∧
  cleanup_calls (run_request (convert_zip nanoid req) st) = [map path fl].
Proof.
  intros Hfiles Hne Hread. destruct (some_files req fl Hfiles Hne) as [Hno Hfl].
  unfold run_request, convert_zip, initial_world, fresh_response, nanoid_call.
  rewrite Hno, Hfl. step.
  rewrite (zip_loop_ok fl datas) by exact Hread. step.
  edestruct cleanupFiles_frame as (r' & st' & uc' & ->).
  destruct r' as [[]|e]; done.
Qed.

(** The GIF route with a readable, decodable first file answers 200 with
    a GIF made from that file alone: its first frame when it is the only
    file, all its frames otherwise. *)
Lemma convert_gif_result (req : request) (f : file) (rest : list file)
    (data : Buffer) (frames : list frame) (st : store) :
  files req = Some (f :: rest) →
  st !! path f = Some (RegularFile data) →
  sharp_frames data = Some frames →
  sent (res (run_request (convert_gif nanoid sharp_frames req) st))
    = Some (GifBuffer (mkGif (if bool_decide (rest = []) then take 1 frames
                              else frames) 500 0)) ∧
  statusCode (res (run_request (convert_gif nanoid sharp_frames req) st)) = 200.
Proof.
  intros Hfiles Hlook Hframes.
  destruct (some_files req (f :: rest) Hfiles) as [Hno Hfl]; [done|].
  unfold run_request, convert_gif, initial_world, fresh_response, nanoid_call,
    sharp_gif.
  rewrite Hno, Hfl. cbn [map length]. step. unfold readFileSync.
  destruct rest as [|f2 rest]; cbn [Nat.eqb length]; step;
    rewrite Hlook, Hframes; step;
    edestruct cleanupFiles_frame as (r' & st' & uc' & ->);
    destruct r' as [[]|e]; done.
Qed.
End route_results.

(** * The claims *)

Section claims.
Variable nanoid : nat → string.
Variable sharp_metadata : Buffer → option metadata.
Variable pdfkit_image : Buffer → bool.
Variable sharp_frames : Buffer → option (list frame).
Variable sharp_toFormat : string → Buffer → option Buffer.
Variables pageWidth pageHeight : float.
Variable uploadsDir : string.

(** C1 (the code differs).  The claim has the page count equal to the
    number of files whose metadata decoded.  The PDF route calls
    [doc.addPage()] before it decodes, so the document has one page per
    input file, and the page of a file that did not decode is blank. *)
Theorem pdf_page_per_input_file (req : request) (fl : list file) (st : store) :
  files req = Some fl → fl ≠ [] →
  ∃ pages,
    sent (res (run_request
      (convert_pdf nanoid sharp_metadata pdfkit_image pageWidth pageHeight req) st))
      = Some (PdfStream pages) ∧
    length pages = length fl ∧
    ∀ i f, fl !! i = Some f → decodes sharp_metadata st f = false →
           pages !! i = Some [].
Proof.
  intros Hfiles Hne.
  destruct (convert_pdf_result nanoid sharp_metadata pdfkit_image
              pageWidth pageHeight req fl st Hfiles Hne) as (Hsent & _ & _).
  eexists. split; [exact Hsent|]. split; [apply length_map|].
  intros i f Hi Hdec. rewrite list_lookup_fmap, Hi. cbn. f_equal.
  unfold decodes in Hdec. unfold pdf_page_of.
  destruct (readable st f) as [data|]; [|done].
  destruct (sharp_metadata data); [|done].
  rewrite bool_decide_eq_false in Hdec. destruct Hdec. eauto.
Qed.

(** C2 (the code differs).  The claim has every input image become a
    frame.  With two or more files the GIF route passes only
    [filePaths[0]] to sharp: the output holds the frames of the first
    file, with delay 500 and loop 0, and nothing of the other files. *)
Theorem gif_from_first_file_only (req : request) (f f2 : file)
    (rest : list file) (data : Buffer) (frames : list frame) (st : store) :
  files req = Some (f :: f2 :: rest) →
  st !! path f = Some (RegularFile data) →
  sharp_frames data = Some frames →
  sent (res (run_request (convert_gif nanoid sharp_frames req) st))
    = Some (GifBuffer (mkGif frames 500 0)).
Proof.
  intros Hfiles Hlook Hframes.
  by destruct (convert_gif_result nanoid sharp_frames req f (f2 :: rest)
                 data frames st Hfiles Hlook Hframes) as [-> _].
Qed.

(** What the archive of the ZIP route holds.  [zip.file] is called for
    every upload, but JSZip keeps one entry per name: for a ZIP request
    whose N >= 1 files can all be read, the archive has one entry per
    distinct original file name, and what is left under a name is the
    bytes of the last input file with that name.  Only when the original
    names are pairwise distinct does it have the N entries, in input
    order, each under its original name with the original bytes. *)
Theorem zip_entry_per_distinct_name (req : request) (fl : list file)
    (datas : list Buffer) (st : store) :
  files req = Some fl → fl ≠ [] →
  Forall2 (λ f d, st !! path f = Some (RegularFile d)) fl datas →
  ∃ entries,
    sent (res (run_request (convert_zip nanoid req) st))
      = Some (ZipBuffer entries) ∧
    NoDup entries.*1 ∧
    (∀ name, name ∈ entries.*1 ↔ name ∈ originalname <$> fl) ∧
    (∀ name, zip_lookup name entries
             = zip_lookup name (rev (zip (originalname <$> fl) datas))) ∧
    (NoDup (originalname <$> fl) → entries = zip (originalname <$> fl) datas).
Proof.
  intros Hfiles Hne Hread.
  destruct (convert_zip_result nanoid req fl datas st Hfiles Hne Hread)
    as (Hsent & _ & _).
  assert ((zip (originalname <$> fl) datas).*1 = originalname <$> fl) as Hnames.
  { apply fst_zip. rewrite length_fmap.
    by rewrite (Forall2_length _ _ _ Hread). }
  eexists. split; [exact Hsent|]. split; [|split; [|split]].
  - apply zip_all_NoDup. constructor.
  - intros name. rewrite zip_all_names, Hnames.
    split; [intros [?|Hin]; [done|by apply elem_of_nil in Hin] | by left].
  - intros name. rewrite zip_all_lookup. by destruct (zip_lookup name _).
  - intros Hnd. apply (zip_all_distinct _ []). cbn. by rewrite Hnames.
Qed.

(** C4 (the code differs).  The claim has cleanup run once on every exit
    path.  No route calls [cleanupFiles] on an error exit.  In the image
    route, when no file converts, the handler returns its 500 response
    before the cleanup: [cleanupFiles] is never called and the store
    still holds every upload. *)
Theorem image_failure_skips_cleanup (req : request) (fl : list file) (st : store) :
  toLowerCase (format req) ∈ allowedFormats →
  files req = Some fl → fl ≠ [] →
  Forall (λ f, ∀ data, st !! path f = Some (RegularFile data) →
                       sharp_toFormat (format req) data = None) fl →
  statusCode (res (run_request
    (convert_image nanoid sharp_toFormat uploadsDir req) st)) = 500 ∧
  sent (res (run_request
    (convert_image nanoid sharp_toFormat uploadsDir req) st))
    = Some (Json "No files were successfully converted") ∧
  cleanup_calls (run_request
    (convert_image nanoid sharp_toFormat uploadsDir req) st) = [] ∧
  fs (run_request (convert_image nanoid sharp_toFormat uploadsDir req) st) = st.
Proof.
  intros Hfmt Hfiles Hne Hnone.
  destruct (some_files req fl Hfiles Hne) as [Hno Hfl].
  unfold run_request, convert_image, initial_world, fresh_response.
  rewrite bool_decide_true by exact Hfmt. rewrite Hno, Hfl. cbn [negb]. step.
  edestruct (image_loop_none nanoid sharp_toFormat uploadsDir (format req) fl [])
    as [c' ->]; [exact Hnone|]. step. done.
Qed.

(** C5 (the code differs).  The claim has the Word route fail when no
    paragraph was produced.  The route has no such check: when no input
    file can be read it still answers 200 with a serialized document,
    one without paragraphs. *)
Theorem word_without_paragraphs_succeeds (req : request) (fl : list file)
    (st : store) :
  files req = Some fl → fl ≠ [] →
  Forall (λ f, readable st f = None) fl →
  statusCode (res (run_request (convert_word nanoid req) st)) = 200 ∧
  sent (res (run_request (convert_word nanoid req) st)) = Some (DocxBuffer []).
Proof.
  intros Hfiles Hne Hnone.
  destruct (convert_word_result nanoid req fl st Hfiles Hne)
    as (Hsent & Hstatus & _).
  split; [exact Hstatus|]. rewrite Hsent. do 2 f_equal. unfold word_paragraphs.
  clear Hfiles Hne Hsent Hstatus.
  induction Hnone as [|f fl Hf _ IH]; [done|].
  cbn [omap list_omap]. rewrite Hf. exact IH.
Qed.

(** C9.  In the image route the format is validated before the file
    list: a request with no files and an unsupported format gets the 400
    [Unsupported format] response, not [No files uploaded]. *)
Theorem unsupported_format_checked_first (req : request) (st : store) :
  no_files req = true →
  toLowerCase (format req) ∉ allowedFormats →
  statusCode (res (run_request
    (convert_image nanoid sharp_toFormat uploadsDir req) st)) = 400 ∧
  sent (res (run_request
    (convert_image nanoid sharp_toFormat uploadsDir req) st))
    = Some (Json "Unsupported format").
Proof.
  intros _ Hfmt.
  unfold run_request, convert_image, initial_world, fresh_response.
  rewrite bool_decide_false by exact Hfmt. cbn [negb]. step. done.
Qed.

(** C10.  In the PDF and Word routes the cleanup list is every input
    path, whether or not the file was processed: the one [cleanupFiles]
    call of a request that passed validation gets the paths of all input
    files, in input order. *)
Theorem cleanup_list_is_every_input_path (req : request) (fl : list file)
    (st : store) :
  files req = Some fl → fl ≠ [] →
  cleanup_calls (run_request
    (convert_pdf nanoid sharp_metadata pdfkit_image pageWidth pageHeight req) st)
    = [map path fl] ∧
  cleanup_calls (run_request (convert_word nanoid req) st) = [map path fl].
Proof.
  intros Hfiles Hne. split.
  - apply (convert_pdf_result nanoid sharp_metadata pdfkit_image
             pageWidth pageHeight req fl st Hfiles Hne).
  - apply (convert_word_result nanoid req fl st Hfiles Hne).
Qed.

(** C6 (the code differs).  The claim has the single converted artifact
    streamed.  The route calls [res.sendFile] and then, in the same
    synchronous run, [cleanupFiles] on the uploads and on the artifact:
    when the transfer opens the artifact it is gone, the error reaches
    the error middleware, and the response is a 500 with an error body. *)
Theorem image_single_artifact_removed_before_transfer (req : request)
    (f : file) (data out : Buffer) (st : store) :
  toLowerCase (format req) ∈ allowedFormats →
  files req = Some [f] →
  st !! path f = Some (RegularFile data) →
  sharp_toFormat (format req) data = Some out →
  st !! artifact_path uploadsDir (nanoid 0) (format req) f ≠ Some Directory →
  statusCode (res (run_request
    (convert_image nanoid sharp_toFormat uploadsDir req) st)) = 500 ∧
  sent (res (run_request
    (convert_image nanoid sharp_toFormat uploadsDir req) st))
    = Some (Json "ENOENT: no such file or directory, open") ∧
  cleanup_calls (run_request
    (convert_image nanoid sharp_toFormat uploadsDir req) st)
    = [[path f; artifact_path uploadsDir (nanoid 0) (format req) f]] ∧
  fs (run_request (convert_image nanoid sharp_toFormat uploadsDir req) st)
    !! artifact_path uploadsDir (nanoid 0) (format req) f = None.
Proof.
  intros Hfmt Hfiles Hlook Hout Hnodir.
  destruct (some_files req [f] Hfiles) as [Hno Hfl]; [done|].
  unfold run_request, convert_image, initial_world, fresh_response.
  rewrite bool_decide_true by exact Hfmt. rewrite Hno, Hfl. cbn [negb for_of map].
  unfold image_file, nanoid_call, sharp_toFile. step.
  unfold readFileSync. rewrite Hlook, Hout. step.
  fold (artifact_path uploadsDir (nanoid 0) (format req) f).
  set (p := artifact_path uploadsDir (nanoid 0) (format req) f) in *.
  assert ((match st !! p with
           | Some Directory =>
               λ w, (Throw (Error "EISDIR: illegal operation on a directory, open"), w)
           | _ => λ w, (Ok tt, mkWorld (<[p := RegularFile out]> (fs w)) (ids w)
                                 (console w) (cleanup_calls w) (unlink_calls w)
                                 (doc w) (res w) (pending w))
           end : M unit)
          = λ w, (Ok tt, mkWorld (<[p := RegularFile out]> (fs w)) (ids w)
                           (console w) (cleanup_calls w) (unlink_calls w)
                           (doc w) (res w) (pending w))) as ->.
  { by destruct (st !! p) as [[?|]|]. }
  step. cbn [app Converted.path Converted.convertedName]. step.
  edestruct (cleanupFiles_ok [path f; p]) as (st' & u & -> & Hfs & _).
  { cbn. repeat constructor.
    - rewrite lookup_insert. case_decide; [done|]. by rewrite Hlook.
    - by rewrite lookup_insert_eq. }
  cbn in Hfs. unfold drain. step. cbn [fold_left app run_deferred]. step.
  assert (p ∈ [path f; p]) as Hin by (right; left).
  unfold readFileSync. rewrite Hfs, decide_True by exact Hin.
  unfold errorMiddleware. step. cbn. by rewrite Hfs, decide_True by exact Hin.
Qed.

End claims.

(** ** The claims on concrete requests *)

Lemma pdf_page_per_input_file_witness :
  files Fixture.three_files = Some [Fixture.f_cat; Fixture.f_junk; Fixture.f_dog] ∧
  [Fixture.f_cat; Fixture.f_junk; Fixture.f_dog] ≠ [] ∧
  ∃ pages,
    sent (res (run_request (Fixture.convert_pdf Fixture.three_files)
                 Fixture.uploads)) = Some (PdfStream pages) ∧
    length pages = 3 ∧
    ∀ i f, [Fixture.f_cat; Fixture.f_junk; Fixture.f_dog] !! i = Some f →
           decodes Fixture.sharp_metadata Fixture.uploads f = false →
           pages !! i = Some [].
Proof.
  split; [reflexivity|]. split; [discriminate|].
  apply (pdf_page_per_input_file Fixture.nanoid Fixture.sharp_metadata
           Fixture.pdfkit_image Fixture.pageWidth Fixture.pageHeight
           Fixture.three_files [Fixture.f_cat; Fixture.f_junk; Fixture.f_dog]
           Fixture.uploads); [reflexivity | discriminate].
Defined.

(** Three files, one of which does not decode: three pages, the second
    one blank. *)
Example pdf_three_files_three_pages :
  images_per_page (res (run_request (Fixture.convert_pdf Fixture.three_files)
                          Fixture.uploads)) = [1; 0; 1]%nat ∧
  map (decodes Fixture.sharp_metadata Fixture.uploads)
      [Fixture.f_cat; Fixture.f_junk; Fixture.f_dog] = [true; false; true].
Proof. split; vm_compute; reflexivity. Qed.

Lemma gif_from_first_file_only_witness :
  files Fixture.two_images = Some [Fixture.f_cat; Fixture.f_dog] ∧
  Fixture.uploads !! path Fixture.f_cat = Some (RegularFile Fixture.cat) ∧
  Fixture.sharp_frames Fixture.cat = Some [Fixture.cat] ∧
  sent (res (run_request (Fixture.convert_gif Fixture.two_images) Fixture.uploads))
    = Some (GifBuffer (mkGif [Fixture.cat] 500 0)).
Proof.
  split; [reflexivity|]. split; [vm_compute; reflexivity|].
  split; [reflexivity|].
  apply (gif_from_first_file_only Fixture.nanoid Fixture.sharp_frames
           Fixture.two_images Fixture.f_cat Fixture.f_dog [] Fixture.cat
           [Fixture.cat] Fixture.uploads);
    [reflexivity | vm_compute; reflexivity | reflexivity].
Defined.

(** C3 (the code differs).  The claim has N entries for N input files,
    duplicate names kept.  The route adds every upload with
    [zip.file(file.originalname, fileData)], and JSZip replaces an entry
    of the same name: for two uploads that are both named photo.png, and
    that multer stored apart, the archive holds one entry, with the bytes
    of the second upload; the bytes of the first are lost. *)
Theorem zip_same_name_keeps_last_only :
  sent (res (run_request (Fixture.convert_zip Fixture.same_name_twice)
               Fixture.same_names))
    = Some (ZipBuffer [("photo.png", Fixture.dog)]).
Proof. vm_compute. reflexivity. Qed.

Lemma zip_entry_per_distinct_name_witness :
  files Fixture.two_images = Some [Fixture.f_cat; Fixture.f_dog] ∧
  [Fixture.f_cat; Fixture.f_dog] ≠ [] ∧
  Forall2 (λ f d, Fixture.uploads !! path f = Some (RegularFile d))
          [Fixture.f_cat; Fixture.f_dog] [Fixture.cat; Fixture.dog] ∧
  ∃ entries,
    sent (res (run_request (Fixture.convert_zip Fixture.two_images)
                 Fixture.uploads)) = Some (ZipBuffer entries) ∧
    NoDup entries.*1 ∧
    (∀ name, name ∈ entries.*1 ↔
             name ∈ originalname <$> [Fixture.f_cat; Fixture.f_dog]) ∧
    (∀ name, zip_lookup name entries
             = zip_lookup name
                 (rev (zip (originalname <$> [Fixture.f_cat; Fixture.f_dog])
                           [Fixture.cat; Fixture.dog]))) ∧
    (NoDup (originalname <$> [Fixture.f_cat; Fixture.f_dog]) →
     entries = zip (originalname <$> [Fixture.f_cat; Fixture.f_dog])
                   [Fixture.cat; Fixture.dog]).
Proof.
  assert (Forall2 (λ f d, Fixture.uploads !! path f = Some (RegularFile d))
            [Fixture.f_cat; Fixture.f_dog] [Fixture.cat; Fixture.dog]) as Hread.
  { repeat constructor; vm_compute; reflexivity. }
  split; [reflexivity|]. split; [discriminate|]. split; [exact Hread|].
  apply (zip_entry_per_distinct_name Fixture.nanoid Fixture.two_images
           [Fixture.f_cat; Fixture.f_dog] [Fixture.cat; Fixture.dog]
           Fixture.uploads);
    [reflexivity | discriminate | exact Hread].
Defined.

Lemma image_failure_skips_cleanup_witness :
  toLowerCase (format Fixture.only_junk) ∈ allowedFormats ∧
  files Fixture.only_junk = Some [Fixture.f_junk] ∧
  [Fixture.f_junk] ≠ [] ∧
  Forall (λ f, ∀ data, Fixture.uploads !! path f = Some (RegularFile data) →
                       Fixture.sharp_toFormat (format Fixture.only_junk) data = None)
         [Fixture.f_junk] ∧
  statusCode (res (run_request (Fixture.convert_image Fixture.only_junk)
                     Fixture.uploads)) = 500 ∧
  sent (res (run_request (Fixture.convert_image Fixture.only_junk) Fixture.uploads))
    = Some (Json "No files were successfully converted") ∧
  cleanup_calls (run_request (Fixture.convert_image Fixture.only_junk)
                   Fixture.uploads) = [] ∧
  fs (run_request (Fixture.convert_image Fixture.only_junk) Fixture.uploads)
    = Fixture.uploads.
Proof.
  assert (toLowerCase (format Fixture.only_junk) ∈ allowedFormats) as Hfmt.
  { apply (bool_decide_unpack _). vm_compute. exact I. }
  assert (Forall (λ f, ∀ data,
            Fixture.uploads !! path f = Some (RegularFile data) →
            Fixture.sharp_toFormat (format Fixture.only_junk) data = None)
            [Fixture.f_junk]) as Hnone.
  { repeat constructor. intros data Hlook. vm_compute in Hlook.
    injection Hlook as <-. reflexivity. }
  split; [exact Hfmt|]. split; [reflexivity|]. split; [discriminate|].
  split; [exact Hnone|].
  apply (image_failure_skips_cleanup Fixture.nanoid Fixture.sharp_toFormat
           Fixture.uploadsDir Fixture.only_junk [Fixture.f_junk] Fixture.uploads);
    [exact Hfmt | reflexivity | discriminate | exact Hnone].
Defined.

Lemma word_without_paragraphs_succeeds_witness :
  files Fixture.only_gone = Some [Fixture.f_gone] ∧
  [Fixture.f_gone] ≠ [] ∧
  Forall (λ f, readable Fixture.uploads f = None) [Fixture.f_gone] ∧
  statusCode (res (run_request (Fixture.convert_word Fixture.only_gone)
                     Fixture.uploads)) = 200 ∧
  sent (res (run_request (Fixture.convert_word Fixture.only_gone) Fixture.uploads))
    = Some (DocxBuffer []).
Proof.
  assert (Forall (λ f, readable Fixture.uploads f = None) [Fixture.f_gone])
    as Hnone by (repeat constructor; vm_compute; reflexivity).
  split; [reflexivity|]. split; [discriminate|]. split; [exact Hnone|].
  apply (word_without_paragraphs_succeeds Fixture.nanoid Fixture.only_gone
           [Fixture.f_gone] Fixture.uploads);
    [reflexivity | discriminate | exact Hnone].
Defined.

Lemma image_single_artifact_removed_before_transfer_witness :
  toLowerCase (format Fixture.one_image) ∈ allowedFormats ∧
  files Fixture.one_image = Some [Fixture.f_cat] ∧
  Fixture.uploads !! path Fixture.f_cat = Some (RegularFile Fixture.cat) ∧
  Fixture.sharp_toFormat (format Fixture.one_image) Fixture.cat = Some Fixture.cat ∧
  Fixture.uploads !! "/app/uploads/id-cat.png" ≠ Some Directory ∧
  statusCode (res (run_request (Fixture.convert_image Fixture.one_image)
                     Fixture.uploads)) = 500 ∧
  sent (res (run_request (Fixture.convert_image Fixture.one_image) Fixture.uploads))
    = Some (Json "ENOENT: no such file or directory, open") ∧
  cleanup_calls (run_request (Fixture.convert_image Fixture.one_image)
                   Fixture.uploads)
    = [[path Fixture.f_cat; "/app/uploads/id-cat.png"]] ∧
  fs (run_request (Fixture.convert_image Fixture.one_image) Fixture.uploads)
    !! "/app/uploads/id-cat.png" = None.
Proof.
  assert (toLowerCase (format Fixture.one_image) ∈ allowedFormats) as Hfmt.
  { apply (bool_decide_unpack _). vm_compute. exact I. }
  split; [exact Hfmt|]. split; [reflexivity|].
  split; [vm_compute; reflexivity|]. split; [reflexivity|].
  split; [vm_compute; discriminate|].
  apply (image_single_artifact_removed_before_transfer Fixture.nanoid
           Fixture.sharp_toFormat Fixture.uploadsDir Fixture.one_image
           Fixture.f_cat Fixture.cat Fixture.cat Fixture.uploads);
    [exact Hfmt | reflexivity | vm_compute; reflexivity | reflexivity
    | vm_compute; discriminate].
Defined.


(** How far past the bound: on the 612 x 792 page, for every image of
    at most 1024 x 1024 pixels, the drawn size exceeds 80% of the page
    by no more than one part in 10^15. *)
Lemma upto_spec (n : nat) (p : positive) (f : positive → bool) :
  upto n p f = true →
  ∀ q, (p ≤ q)%positive → (Pos.to_nat q < Pos.to_nat p + n)%nat → f q = true.
Proof.
  revert p. induction n as [|n IH]; intros p Hall q Hle Hlt; [lia|].
  cbn [upto] in Hall. apply andb_prop in Hall as [Hp Hrest].
  destruct (decide (q = p)) as [->|Hne]; [exact Hp|].
  apply (IH (Pos.succ p) Hrest); lia.
Qed.

Example letter_page_fits_up_to_rounding (w h : positive) :
  (w ≤ 1024)%positive → (h ≤ 1024)%positive →
  fits_up_to_rounding Fixture.pageWidth Fixture.pageHeight (mkMetadata w h) = true.
Proof.
  intros Hw Hh.
  assert (upto 1024 1 (λ w, upto 1024 1 (λ h,
            fits_up_to_rounding Fixture.pageWidth Fixture.pageHeight
              (mkMetadata w h))) = true) as Hall
    by (vm_compute; reflexivity).
  apply (upto_spec _ _ (λ h, fits_up_to_rounding _ _ (mkMetadata w h))
           (upto_spec _ _ _ Hall w ltac:(lia) ltac:(lia)) h); lia.
Qed.


Lemma unsupported_format_checked_first_witness :
  no_files Fixture.no_files_svg = true ∧
  (toLowerCase (format Fixture.no_files_svg) ∉ allowedFormats) ∧
  statusCode (res (run_request (Fixture.convert_image Fixture.no_files_svg)
                     Fixture.uploads)) = 400 ∧
  sent (res (run_request (Fixture.convert_image Fixture.no_files_svg)
               Fixture.uploads)) = Some (Json "Unsupported format").
Proof.
  assert (toLowerCase (format Fixture.no_files_svg) ∉ allowedFormats) as Hfmt.
  { apply (bool_decide_eq_false_1 _). vm_compute. reflexivity. }
  split; [reflexivity|]. split; [exact Hfmt|].
  apply (unsupported_format_checked_first Fixture.nanoid Fixture.sharp_toFormat
           Fixture.uploadsDir Fixture.no_files_svg Fixture.uploads);
    [reflexivity | exact Hfmt].
Defined.

Lemma cleanup_list_is_every_input_path_witness :
  files Fixture.image_and_gone = Some [Fixture.f_cat; Fixture.f_gone] ∧
  [Fixture.f_cat; Fixture.f_gone] ≠ [] ∧
  cleanup_calls (run_request (Fixture.convert_pdf Fixture.image_and_gone)
                   Fixture.uploads)
    = [[path Fixture.f_cat; path Fixture.f_gone]] ∧
  cleanup_calls (run_request (Fixture.convert_word Fixture.image_and_gone)
                   Fixture.uploads)
    = [[path Fixture.f_cat; path Fixture.f_gone]].
Proof.
  split; [reflexivity|]. split; [discriminate|].
  apply (cleanup_list_is_every_input_path Fixture.nanoid Fixture.sharp_metadata
           Fixture.pdfkit_image Fixture.pageWidth Fixture.pageHeight
           Fixture.image_and_gone [Fixture.f_cat; Fixture.f_gone] Fixture.uploads);
    [reflexivity | discriminate].
Defined.

(** ** Further runs *)

(** Two images converted to PNG: the response is a zip of the two
    artifacts, and uploads and artifacts are removed. *)
Example image_two_files_zipped :
  sent (res (run_request
    (Fixture.convert_image (mkRequest (Some [Fixture.f_cat; Fixture.f_dog]) "png"))
    Fixture.uploads))
    = Some (ZipBuffer [("cat.png", Fixture.cat); ("dog.png", Fixture.dog)]) ∧
  headers (res (run_request
    (Fixture.convert_image (mkRequest (Some [Fixture.f_cat; Fixture.f_dog]) "png"))
    Fixture.uploads)) !! "Content-Type" = Some "application/zip" ∧
  map fst (map_to_list (fs (run_request
    (Fixture.convert_image (mkRequest (Some [Fixture.f_cat; Fixture.f_dog]) "png"))
    Fixture.uploads))) = [path Fixture.f_junk].
Proof. repeat split; vm_compute; reflexivity. Qed.

(** The headers the image route sets for a single artifact. *)
Example image_single_headers :
  headers (convert_image Fixture.nanoid Fixture.sharp_toFormat Fixture.uploadsDir
             Fixture.one_image (initial_world Fixture.uploads)).2.(res)
    !! "Content-Type" = Some "image/png" ∧
  headers (convert_image Fixture.nanoid Fixture.sharp_toFormat Fixture.uploadsDir
             Fixture.one_image (initial_world Fixture.uploads)).2.(res)
    !! "Content-Disposition" = Some (attachment "cat.png").
Proof. split; vm_compute; reflexivity. Qed.

(** The GIF route on a file sharp rejects: a 500 from the route's catch,
    no cleanup, the upload still stored. *)
Example gif_failure_skips_cleanup :
  statusCode (res (run_request (Fixture.convert_gif Fixture.only_junk)
                     Fixture.uploads)) = 500 ∧
  cleanup_calls (run_request (Fixture.convert_gif Fixture.only_junk)
                   Fixture.uploads) = [] ∧
  fs (run_request (Fixture.convert_gif Fixture.only_junk) Fixture.uploads)
    !! path Fixture.f_junk = Some (RegularFile Fixture.junk).
Proof. repeat split; vm_compute; reflexivity. Qed.

(** A single image through the GIF route: a one-frame GIF. *)
Example gif_single_file :
  sent (res (run_request (Fixture.convert_gif Fixture.one_image) Fixture.uploads))
    = Some (GifBuffer (mkGif [Fixture.cat] 500 0)).
Proof. vm_compute. reflexivity. Qed.

(** * Further properties of the code *)

(** ** [cleanupFiles] *)

(** Paths that are all absent: the loop does nothing at all. *)
Lemma cleanup_loop_absent (paths : list string) (w : world) :
  Forall (λ p, fs w !! p = None) paths →
  forEach unlink_if_exists paths w = (Ok tt, w).
Proof.
  induction 1 as [|p rest Hp _ IH]; [done|].
  cbn [forEach]. unfold unlink_if_exists at 1. step. unfold existsSync.
  rewrite Hp. exact IH.
Qed.

(** Either no listed path is a directory, or there is a first one. *)
Lemma first_directory (paths : list string) (st : store) :
  Forall (λ p, st !! p ≠ Some Directory) paths ∨
  ∃ pre d post,
    paths = pre ++ d :: post ∧
    Forall (λ p, st !! p ≠ Some Directory) pre ∧
    st !! d = Some Directory.
Proof.
  induction paths as [|p rest IH]; [by left|].
  destruct (st !! p) as [[data|]|] eqn:Hp.
  - destruct IH as [Hall|(pre & d & post & -> & Hpre & Hd)].
    + left. constructor; [by rewrite Hp | exact Hall].
    + right. exists (p :: pre), d, post. split; [done|]. split; [|exact Hd].
      constructor; [by rewrite Hp | exact Hpre].
  - right. by exists [], p, rest.
  - destruct IH as [Hall|(pre & d & post & -> & Hpre & Hd)].
    + left. constructor; [by rewrite Hp | exact Hall].
    + right. exists (p :: pre), d, post. split; [done|]. split; [|exact Hd].
      constructor; [by rewrite Hp | exact Hpre].
Qed.

(** X1.  When [cleanupFiles] returns, every deletion it attempted was
    carried out: no listed path is left in the store, every other path is
    as before, [fs.unlinkSync] was called on exactly the listed paths that
    existed, and the response is untouched.  Missing paths and paths
    listed twice are no obstacle. *)
Theorem cleanupFiles_removes_listed (paths : list string) (w w' : world) :
  cleanupFiles paths w = (Ok tt, w') →
  (∀ q, q ∈ paths → fs w' !! q = None) ∧
  (∀ q, q ∉ paths → fs w' !! q = fs w !! q) ∧
  (∀ q, q ∈ unlink_calls w' ↔
        q ∈ unlink_calls w ∨ (q ∈ paths ∧ is_Some (fs w !! q))) ∧
  res w' = res w ∧ pending w' = pending w.
Proof.
  intros Hrun.
  destruct (first_directory paths (fs w))
    as [Hall|(pre & d & post & -> & Hpre & Hd)].
  - destruct (cleanupFiles_ok paths w Hall) as (st' & u & Hok & Hfs & Hu).
    rewrite Hok in Hrun. injection Hrun as <-. cbn. split; [|split; [|split]].
    + intros q Hq. by rewrite Hfs, decide_True.
    + intros q Hq. by rewrite Hfs, decide_False.
    + intros q. rewrite elem_of_app, Hu. tauto.
    + done.
  - exfalso. revert Hrun. rewrite cleanupFiles_loop.
    destruct (cleanup_loop_throw pre post d
                (set_cleanup_calls (λ l, l ++ [pre ++ d :: post]) w))
      as (st' & u & -> & _); [by destruct w | by destruct w | done].
Qed.

Lemma cleanupFiles_removes_listed_witness :
  cleanupFiles [path Fixture.f_cat; "/app/uploads/gone"; path Fixture.f_cat]
               (initial_world Fixture.uploads)
    = (Ok tt, (cleanupFiles
                 [path Fixture.f_cat; "/app/uploads/gone"; path Fixture.f_cat]
                 (initial_world Fixture.uploads)).2) ∧
  (∀ q, q ∈ [path Fixture.f_cat; "/app/uploads/gone"; path Fixture.f_cat] →
        fs (cleanupFiles
              [path Fixture.f_cat; "/app/uploads/gone"; path Fixture.f_cat]
              (initial_world Fixture.uploads)).2 !! q = None) ∧
  (∀ q, q ∉ [path Fixture.f_cat; "/app/uploads/gone"; path Fixture.f_cat] →
        fs (cleanupFiles
              [path Fixture.f_cat; "/app/uploads/gone"; path Fixture.f_cat]
              (initial_world Fixture.uploads)).2 !! q
        = fs (initial_world Fixture.uploads) !! q) ∧
  (∀ q, q ∈ unlink_calls
              (cleanupFiles
                 [path Fixture.f_cat; "/app/uploads/gone"; path Fixture.f_cat]
                 (initial_world Fixture.uploads)).2 ↔
        q ∈ unlink_calls (initial_world Fixture.uploads) ∨
        (q ∈ [path Fixture.f_cat; "/app/uploads/gone"; path Fixture.f_cat] ∧
         is_Some (fs (initial_world Fixture.uploads) !! q))) ∧
  res (cleanupFiles
         [path Fixture.f_cat; "/app/uploads/gone"; path Fixture.f_cat]
         (initial_world Fixture.uploads)).2
    = res (initial_world Fixture.uploads) ∧
  pending (cleanupFiles
             [path Fixture.f_cat; "/app/uploads/gone"; path Fixture.f_cat]
             (initial_world Fixture.uploads)).2
    = pending (initial_world Fixture.uploads).
Proof.
  assert (cleanupFiles [path Fixture.f_cat; "/app/uploads/gone"; path Fixture.f_cat]
            (initial_world Fixture.uploads)
          = (Ok tt, (cleanupFiles
                       [path Fixture.f_cat; "/app/uploads/gone"; path Fixture.f_cat]
                       (initial_world Fixture.uploads)).2)) as Hrun.
  { vm_compute. reflexivity. }
  split; [exact Hrun|].
  exact (cleanupFiles_removes_listed
           [path Fixture.f_cat; "/app/uploads/gone"; path Fixture.f_cat]
           (initial_world Fixture.uploads) _ Hrun).
Defined.

(** X2.  Cleaning up twice is harmless: after a cleanup that returned,
    a second cleanup of the same paths returns too, deletes nothing and
    leaves the store as the first one left it. *)
Theorem cleanupFiles_again_is_noop (paths : list string) (w w1 : world) :
  cleanupFiles paths w = (Ok tt, w1) →
  ∃ w2,
    cleanupFiles paths w1 = (Ok tt, w2) ∧
    fs w2 = fs w1 ∧ unlink_calls w2 = unlink_calls w1.
Proof.
  intros Hrun.
  assert (Forall (λ p, fs w1 !! p = None) paths) as Habsent.
  { destruct (first_directory paths (fs w))
      as [Hall|(pre & d & post & -> & Hpre & Hd)].
    - destruct (cleanupFiles_ok paths w Hall) as (st' & u & Hok & Hfs & _).
      rewrite Hok in Hrun. injection Hrun as <-. cbn.
      apply Forall_forall. intros q Hq. by rewrite Hfs, decide_True.
    - exfalso. revert Hrun. destruct w as [st n c cc uc dc r pnd].
      unfold cleanupFiles. step.
      destruct (cleanup_loop_throw pre post d
                  (mkWorld st n c (cc ++ [pre ++ d :: post]) uc dc r pnd) Hpre Hd)
        as (st' & u & -> & _). done. }
  destruct w1 as [st n c cc uc dc r pnd]. unfold cleanupFiles. step.
  rewrite cleanup_loop_absent by exact Habsent. eexists. split; [reflexivity|]. done.
Qed.

Lemma cleanupFiles_again_is_noop_witness :
  cleanupFiles [path Fixture.f_cat; path Fixture.f_dog]
               (initial_world Fixture.uploads)
    = (Ok tt, (cleanupFiles [path Fixture.f_cat; path Fixture.f_dog]
                 (initial_world Fixture.uploads)).2) ∧
  ∃ w2,
    cleanupFiles [path Fixture.f_cat; path Fixture.f_dog]
      (cleanupFiles [path Fixture.f_cat; path Fixture.f_dog]
         (initial_world Fixture.uploads)).2 = (Ok tt, w2) ∧
    fs w2 = fs (cleanupFiles [path Fixture.f_cat; path Fixture.f_dog]
                  (initial_world Fixture.uploads)).2 ∧
    unlink_calls w2
      = unlink_calls (cleanupFiles [path Fixture.f_cat; path Fixture.f_dog]
                        (initial_world Fixture.uploads)).2.
Proof.
  assert (cleanupFiles [path Fixture.f_cat; path Fixture.f_dog]
            (initial_world Fixture.uploads)
          = (Ok tt, (cleanupFiles [path Fixture.f_cat; path Fixture.f_dog]
                       (initial_world Fixture.uploads)).2)) as Hrun.
  { vm_compute. reflexivity. }
  split; [exact Hrun|].
  exact (cleanupFiles_again_is_noop [path Fixture.f_cat; path Fixture.f_dog]
           (initial_world Fixture.uploads) _ Hrun).
Defined.

(** X3.  When [cleanupFiles] throws, the error is the one that
    [fs.unlinkSync] raised on a listed path: that path existed when the
    cleanup began and still exists, and the failing call is the last
    deletion attempted.  A missing file never makes [cleanupFiles] throw,
    since [fs.unlinkSync] is not called on it. *)
Theorem cleanupFiles_throw_comes_from_unlink
    (paths : list string) (w w' : world) (e : error) :
  cleanupFiles paths w = (Throw e, w') →
  ∃ d, d ∈ paths ∧
       existsSync (fs w) d = true ∧
       existsSync (fs w') d = true ∧
       unlinkSync (fs w') d = Throw e ∧
       last (unlink_calls w') = Some d.
Proof.
  intros Hrun.
  destruct (first_directory paths (fs w))
    as [Hall|(pre & d & post & -> & Hpre & Hd)].
  - destruct (cleanupFiles_ok paths w Hall) as (st' & u & Hok & _).
    rewrite Hok in Hrun. discriminate.
  - revert Hrun. rewrite cleanupFiles_loop.
    destruct (cleanup_loop_throw pre post d
                (set_cleanup_calls (λ l, l ++ [pre ++ d :: post]) w))
      as (st' & u & -> & Hfs & _); [by destruct w | by destruct w |].
    intros [= <- <-]. exists d. cbn.
    assert (st' !! d = Some Directory) as Hd'.
    { rewrite Hfs. destruct w; cbn in *. case_decide as Hin; [|exact Hd].
      rewrite Forall_forall in Hpre. by destruct (Hpre d Hin). }
    unfold existsSync, unlinkSync. rewrite Hd, Hd'.
    repeat split.
    + apply elem_of_app. right. left.
    + apply last_snoc.
Qed.

Lemma cleanupFiles_throw_comes_from_unlink_witness :
  cleanupFiles [path Fixture.f_cat; Fixture.dir_path; path Fixture.f_dog]
               (initial_world Fixture.with_directory)
    = (Throw (Error "EISDIR: illegal operation on a directory, unlink '/app/uploads/thumbs'"),
       (cleanupFiles [path Fixture.f_cat; Fixture.dir_path; path Fixture.f_dog]
          (initial_world Fixture.with_directory)).2) ∧
  ∃ d, d ∈ [path Fixture.f_cat; Fixture.dir_path; path Fixture.f_dog] ∧
       existsSync (fs (initial_world Fixture.with_directory)) d = true ∧
       existsSync
         (fs (cleanupFiles [path Fixture.f_cat; Fixture.dir_path; path Fixture.f_dog]
                (initial_world Fixture.with_directory)).2) d = true ∧
       unlinkSync
         (fs (cleanupFiles [path Fixture.f_cat; Fixture.dir_path; path Fixture.f_dog]
                (initial_world Fixture.with_directory)).2) d
         = Throw (Error "EISDIR: illegal operation on a directory, unlink '/app/uploads/thumbs'") ∧
       last (unlink_calls
               (cleanupFiles [path Fixture.f_cat; Fixture.dir_path; path Fixture.f_dog]
                  (initial_world Fixture.with_directory)).2) = Some d.
Proof.
  assert (cleanupFiles [path Fixture.f_cat; Fixture.dir_path; path Fixture.f_dog]
            (initial_world Fixture.with_directory)
          = (Throw (Error "EISDIR: illegal operation on a directory, unlink '/app/uploads/thumbs'"),
             (cleanupFiles [path Fixture.f_cat; Fixture.dir_path; path Fixture.f_dog]
                (initial_world Fixture.with_directory)).2)) as Hrun.
  { vm_compute. reflexivity. }
  split; [exact Hrun|].
  exact (cleanupFiles_throw_comes_from_unlink _ _ _ _ Hrun).
Defined.

(** ** The routes: validation and failure exits *)

Lemma zip_loop_throw (pre post : list file) (f : file) (datas : list Buffer)
    (e : error) (z : JSZip) (filePaths : list string) (w : world) :
  Forall2 (λ f d, fs w !! path f = Some (RegularFile d)) pre datas →
  readFileSync (fs w) (path f) = Throw e →
  for_of zip_add (z, filePaths) (pre ++ f :: post) w = (Throw e, w).
Proof.
  intros Hpre Hf. revert z filePaths.
  induction Hpre as [|f0 d pre datas Hf0 _ IH]; intros z filePaths; cbn [app for_of].
  - unfold zip_add at 1. step. by rewrite Hf.
  - unfold zip_add at 1. step. unfold readFileSync at 1. rewrite Hf0.
    apply IH.
Qed.

Section route_exits.
Variable nanoid : nat → string.
Variable sharp_metadata : Buffer → option metadata.
Variable pdfkit_image : Buffer → bool.
Variable sharp_frames : Buffer → option (list frame).
Variable sharp_toFormat : string → Buffer → option Buffer.
Variables pageWidth pageHeight : float.
Variable uploadsDir : string.

(** X4.  A request without files is turned away by every conversion
    route with 400 [No files uploaded] (by the image route once the
    format is an allowed one), before anything else happens: the store
    is untouched, nothing is cleaned up and no identifier is drawn. *)
Theorem no_files_rejected_without_effects (req : request) (st : store) :
  no_files req = true →
  answered_only 400 "No files uploaded" st
    (run_request (convert_zip nanoid req) st) ∧
  answered_only 400 "No files uploaded" st
    (run_request
       (convert_pdf nanoid sharp_metadata pdfkit_image pageWidth pageHeight req) st) ∧
  answered_only 400 "No files uploaded" st
    (run_request (convert_word nanoid req) st) ∧
  answered_only 400 "No files uploaded" st
    (run_request (convert_gif nanoid sharp_frames req) st) ∧
  (toLowerCase (format req) ∈ allowedFormats →
   answered_only 400 "No files uploaded" st
     (run_request (convert_image nanoid sharp_toFormat uploadsDir req) st)).
Proof.
  intros Hno. unfold answered_only, run_request, initial_world, fresh_response.
  repeat split;
    try (intros Hfmt);
    unfold convert_zip, convert_pdf, convert_word, convert_gif, convert_image;
    rewrite ?bool_decide_true by assumption; rewrite Hno; cbn [negb]; step; done.
Qed.

(** X5.  An unsupported target format ends the image route at once with
    400 [Unsupported format], whatever was uploaded: the uploads stay in
    the store and no cleanup runs. *)
Theorem unsupported_format_leaves_uploads (req : request) (st : store) :
  toLowerCase (format req) ∉ allowedFormats →
  answered_only 400 "Unsupported format" st
    (run_request (convert_image nanoid sharp_toFormat uploadsDir req) st).
Proof.
  intros Hfmt. unfold answered_only, run_request, convert_image, initial_world,
    fresh_response.
  rewrite bool_decide_false by exact Hfmt. cbn [negb]. step. done.
Qed.

(** X6.  The ZIP route is all or nothing: when one file cannot be read,
    the response is a 500 carrying the message of that read error, no
    archive is sent, and the route stops there, with the store untouched
    and no cleanup. *)
Theorem zip_unreadable_file_fails (req : request) (pre post : list file)
    (f : file) (datas : list Buffer) (e : error) (st : store) :
  files req = Some (pre ++ f :: post) →
  Forall2 (λ f d, st !! path f = Some (RegularFile d)) pre datas →
  readFileSync st (path f) = Throw e →
  answered_only 500 (message e) st (run_request (convert_zip nanoid req) st).
Proof.
  intros Hfiles Hpre Hf.
  destruct (some_files req _ Hfiles) as [Hno Hfl]; [by destruct pre|].
  unfold answered_only, run_request, convert_zip, initial_world, fresh_response.
  rewrite Hno, Hfl. step.
  rewrite (zip_loop_throw pre post f datas e) by assumption. step. done.
Qed.

(** X12.  The GIF route stands or falls with its first file: when that
    file cannot be read or sharp rejects it, the response is a 500, no
    cleanup runs and every upload stays in the store, whatever the other
    files are. *)
Theorem gif_first_file_failure (req : request) (f : file) (rest : list file)
    (st : store) :
  files req = Some (f :: rest) →
  (∀ data, st !! path f = Some (RegularFile data) → sharp_frames data = None) →
  statusCode (res (run_request (convert_gif nanoid sharp_frames req) st)) = 500 ∧
  (∃ msg, sent (res (run_request (convert_gif nanoid sharp_frames req) st))
          = Some (Json msg)) ∧
  cleanup_calls (run_request (convert_gif nanoid sharp_frames req) st) = [] ∧
  fs (run_request (convert_gif nanoid sharp_frames req) st) = st.
Proof.
  intros Hfiles Hbad.
  destruct (some_files req (f :: rest) Hfiles) as [Hno Hfl]; [done|].
  unfold run_request, convert_gif, initial_world, fresh_response, nanoid_call,
    sharp_gif.
  rewrite Hno, Hfl. cbn [map length]. step. unfold readFileSync.
  destruct rest; cbn [Nat.eqb length]; step;
    (destruct (st !! path f) as [[data|]|] eqn:Hlook; step;
     [rewrite (Hbad data eq_refl); step | |]; eauto 10).
Qed.
End route_exits.

(** ** The routes: what a successful run leaves behind *)

Lemma readable_not_directory (fl : list file) (datas : list Buffer) (st : store) :
  Forall2 (λ f d, st !! path f = Some (RegularFile d)) fl datas →
  Forall (λ p, st !! p ≠ Some Directory) (map path fl).
Proof.
  induction 1 as [|f d fl datas Hf _ IH]; cbn; constructor; [|exact IH].
  by rewrite Hf.
Qed.

Lemma uploads_removed_intro (fl : list file) (st st' : store) :
  (∀ q, st' !! q = if decide (q ∈ map path fl) then None else st !! q) →
  (∀ f, f ∈ fl → st' !! path f = None) ∧
  (∀ q, q ∉ map path fl → st' !! q = st !! q).
Proof.
  intros Hfs. split.
  - intros f Hf. rewrite Hfs, decide_True; [done|].
    apply list_elem_of_In, in_map, list_elem_of_In, Hf.
  - intros q Hq. by rewrite Hfs, decide_False.
Qed.

Lemma word_paragraphs_readable (fl : list file) (datas : list Buffer) (st : store) :
  Forall2 (λ f d, st !! path f = Some (RegularFile d)) fl datas →
  word_paragraphs st fl = map (λ d, mkParagraph d 400 300) datas.
Proof.
  unfold word_paragraphs.
  induction 1 as [|f d fl datas Hf _ IH]; [done|].
  cbn [omap list_omap map]. unfold readable at 1, readFileSync. rewrite Hf. cbn.
  by rewrite IH.
Qed.

Section route_successes.
Variable nanoid : nat → string.
Variable sharp_metadata : Buffer → option metadata.
Variable pdfkit_image : Buffer → bool.
Variable sharp_frames : Buffer → option (list frame).
Variables pageWidth pageHeight : float.

(** X7.  A ZIP request whose files can all be read is answered as
    [application/zip] under the name [converted-photos-<id>.zip], with
    the first identifier drawn; afterwards every upload of the request
    is gone from the store and no other path has changed. *)
Theorem zip_success_removes_uploads (req : request) (fl : list file)
    (datas : list Buffer) (st : store) :
  files req = Some fl → fl ≠ [] →
  Forall2 (λ f d, st !! path f = Some (RegularFile d)) fl datas →
  headers (res (run_request (convert_zip nanoid req) st)) !! "Content-Type"
    = Some "application/zip" ∧
  headers (res (run_request (convert_zip nanoid req) st)) !! "Content-Disposition"
    = Some (attachment ("converted-photos-" +:+ nanoid 0 +:+ ".zip")) ∧
  uploads_removed fl st (run_request (convert_zip nanoid req) st).
Proof.
  intros Hfiles Hne Hread. destruct (some_files req fl Hfiles Hne) as [Hno Hfl].
  unfold uploads_removed, run_request, convert_zip, initial_world, fresh_response,
    nanoid_call.
  rewrite Hno, Hfl. step.
  rewrite (zip_loop_ok fl datas) by exact Hread. step.
  edestruct (cleanupFiles_ok (map path fl)) as (st' & u & -> & Hfs & _).
  { cbn. exact (readable_not_directory fl datas st Hread). }
  cbn in Hfs. unfold drain. step. cbn [fold_left]. step.
  split; [by rewrite lookup_insert_ne, lookup_insert_eq|].
  split; [by rewrite lookup_insert_eq|].
  exact (uploads_removed_intro fl st st' Hfs).
Qed.

(** X8.  The PDF route itself deletes nothing: when the handler has
    returned, the document has been sent, no cleanup has run, the store
    is as it was, and one [finish] listener is registered that will
    clean up every input path. *)
Theorem pdf_cleanup_waits_for_finish (req : request) (fl : list file) (st : store) :
  files req = Some fl → fl ≠ [] →
  (∃ pages,
     sent (res (convert_pdf nanoid sharp_metadata pdfkit_image pageWidth
                  pageHeight req (initial_world st)).2)
       = Some (PdfStream pages)) ∧
  cleanup_calls (convert_pdf nanoid sharp_metadata pdfkit_image pageWidth
                   pageHeight req (initial_world st)).2 = [] ∧
  fs (convert_pdf nanoid sharp_metadata pdfkit_image pageWidth
        pageHeight req (initial_world st)).2 = st ∧
  pending (convert_pdf nanoid sharp_metadata pdfkit_image pageWidth
             pageHeight req (initial_world st)).2 = [OnFinish (map path fl)].
Proof.
  intros Hfiles Hne. destruct (some_files req fl Hfiles Hne) as [Hno Hfl].
  unfold convert_pdf, initial_world, fresh_response, nanoid_call, doc_end.
  rewrite Hno, Hfl. step.
  edestruct pdf_loop as [c' ->]. step. eauto.
Qed.

(** X9.  Once the response has finished, a PDF request whose input
    paths hold no directory has left none of its uploads in the store,
    decoded or not; the response went out as [application/pdf] under the
    name [converted-photos-<id>.pdf]. *)
Theorem pdf_finish_removes_uploads (req : request) (fl : list file) (st : store) :
  files req = Some fl → fl ≠ [] →
  Forall (λ p, st !! p ≠ Some Directory) (map path fl) →
  headers (res (run_request
    (convert_pdf nanoid sharp_metadata pdfkit_image pageWidth pageHeight req) st))
    !! "Content-Type" = Some "application/pdf" ∧
  headers (res (run_request
    (convert_pdf nanoid sharp_metadata pdfkit_image pageWidth pageHeight req) st))
    !! "Content-Disposition"
    = Some (attachment ("converted-photos-" +:+ nanoid 0 +:+ ".pdf")) ∧
  uploads_removed fl st (run_request
    (convert_pdf nanoid sharp_metadata pdfkit_image pageWidth pageHeight req) st).
Proof.
  intros Hfiles Hne Hdir. destruct (some_files req fl Hfiles Hne) as [Hno Hfl].
  unfold uploads_removed, run_request, convert_pdf, initial_world, fresh_response,
    nanoid_call, doc_end.
  rewrite Hno, Hfl. step.
  edestruct pdf_loop as [c' ->]. step.
  unfold drain. step. cbn [fold_left app run_deferred].
  edestruct (cleanupFiles_ok (map path fl)) as (st' & u & -> & Hfs & _);
    [exact Hdir|].
  cbn in Hfs. step.
  split; [by rewrite lookup_insert_ne, lookup_insert_eq|].
  split; [by rewrite lookup_insert_eq|].
  exact (uploads_removed_intro fl st st' Hfs).
Qed.

(** X10.  A PDF request in which no file decodes is still answered 200:
    the document has one blank page per input file. *)
Theorem pdf_nothing_decodes_all_blank (req : request) (fl : list file) (st : store) :
  files req = Some fl → fl ≠ [] →
  Forall (λ f, decodes sharp_metadata st f = false) fl →
  statusCode (res (run_request
    (convert_pdf nanoid sharp_metadata pdfkit_image pageWidth pageHeight req) st))
    = 200 ∧
  sent (res (run_request
    (convert_pdf nanoid sharp_metadata pdfkit_image pageWidth pageHeight req) st))
    = Some (PdfStream (replicate (length fl) [])).
Proof.
  intros Hfiles Hne Hnone.
  destruct (convert_pdf_result nanoid sharp_metadata pdfkit_image
              pageWidth pageHeight req fl st Hfiles Hne) as (Hsent & Hstatus & _).
  split; [exact Hstatus|]. rewrite Hsent. do 2 f_equal.
  clear Hfiles Hne Hsent Hstatus.
  induction Hnone as [|f fl Hf _ IH]; [done|]. cbn [map length replicate].
  rewrite IH. f_equal. unfold decodes in Hf. unfold pdf_page_of.
  destruct (readable st f) as [data|]; [|done].
  destruct (sharp_metadata data); [|done].
  rewrite bool_decide_eq_false in Hf. destruct Hf. eauto.
Qed.

(** X11.  The pages of the PDF follow the input order: page i belongs to
    file i, holds at most one image, and an image on it is the i-th
    file's. *)
Theorem pdf_pages_in_input_order (req : request) (fl : list file) (st : store)
    (pages : list page) (i : nat) (pg : page) :
  files req = Some fl →
  sent (res (run_request
    (convert_pdf nanoid sharp_metadata pdfkit_image pageWidth pageHeight req) st))
    = Some (PdfStream pages) →
  pages !! i = Some pg →
  ∃ f, fl !! i = Some f ∧ (length pg ≤ 1)%nat ∧
       ∀ pl, pl ∈ pg → image_path pl = path f.
Proof.
  intros Hfiles Hsent Hpg.
  destruct fl as [|f0 fl].
  { revert Hsent.
    unfold run_request, convert_pdf, no_files, initial_world, fresh_response.
    rewrite Hfiles. step. done. }
  destruct (convert_pdf_result nanoid sharp_metadata pdfkit_image
              pageWidth pageHeight req (f0 :: fl) st Hfiles) as (Hres & _); [done|].
  assert (pages = map (pdf_page_of sharp_metadata pdfkit_image pageWidth
                         pageHeight st) (f0 :: fl)) as -> by congruence.
  rewrite list_lookup_fmap in Hpg.
  destruct ((f0 :: fl) !! i) as [f|] eqn:Hf; [|done].
  injection Hpg as <-. exists f. split; [done|].
  unfold pdf_page_of.
  destruct (readable st f) as [data|]; [|split; [cbn; lia | by intros pl ?%elem_of_nil]].
  destruct (sharp_metadata data); [|split; [cbn; lia | by intros pl ?%elem_of_nil]].
  destruct (pdfkit_image data); [|split; [cbn; lia | by intros pl ?%elem_of_nil]].
  split; [cbn; lia|]. by intros pl ->%list_elem_of_singleton.
Qed.

(** X13.  The Word route embeds whatever it can read, without decoding
    it: for files that can all be read, the document holds one 400 x 300
    image paragraph per file, in input order, with exactly the file's
    bytes; the response is a docx attachment and the uploads are gone
    from the store afterwards. *)
Theorem word_embeds_every_readable_file (req : request) (fl : list file)
    (datas : list Buffer) (st : store) :
  files req = Some fl → fl ≠ [] →
  Forall2 (λ f d, st !! path f = Some (RegularFile d)) fl datas →
  sent (res (run_request (convert_word nanoid req) st))
    = Some (DocxBuffer (map (λ d, mkParagraph d 400 300) datas)) ∧
  headers (res (run_request (convert_word nanoid req) st)) !! "Content-Disposition"
    = Some (attachment ("converted-photos-" +:+ nanoid 0 +:+ ".docx")) ∧
  uploads_removed fl st (run_request (convert_word nanoid req) st).
Proof.
  intros Hfiles Hne Hread. destruct (some_files req fl Hfiles Hne) as [Hno Hfl].
  unfold uploads_removed, run_request, convert_word, initial_world, fresh_response,
    nanoid_call.
  rewrite Hno, Hfl. step.
  edestruct word_loop as [c' ->]. step.
  edestruct (cleanupFiles_ok (map path fl)) as (st' & u & -> & Hfs & _).
  { cbn. exact (readable_not_directory fl datas st Hread). }
  cbn in Hfs. unfold drain. step. cbn [fold_left app]. step.
  rewrite (word_paragraphs_readable fl datas st Hread).
  split; [done|]. split; [by rewrite lookup_insert_eq|].
  exact (uploads_removed_intro fl st st' Hfs).
Qed.

(** X14.  A single file through the GIF route gives a GIF of its first
    frame only, also when the input has more frames; all inputs of a GIF
    request that succeeds are removed from the store, the ones never
    read included. *)
Theorem gif_success_first_frame_and_cleanup (req : request) (f : file)
    (rest : list file) (data : Buffer) (frames : list frame) (st : store) :
  files req = Some (f :: rest) →
  st !! path f = Some (RegularFile data) →
  sharp_frames data = Some frames →
  Forall (λ p, st !! p ≠ Some Directory) (map path rest) →
  (rest = [] →
   sent (res (run_request (convert_gif nanoid sharp_frames req) st))
     = Some (GifBuffer (mkGif (take 1 frames) 500 0))) ∧
  headers (res (run_request (convert_gif nanoid sharp_frames req) st))
    !! "Content-Type" = Some "image/gif" ∧
  uploads_removed (f :: rest) st
    (run_request (convert_gif nanoid sharp_frames req) st).
Proof.
  intros Hfiles Hlook Hframes Hdir.
  destruct (some_files req (f :: rest) Hfiles) as [Hno Hfl]; [done|].
  assert (Forall (λ p, st !! p ≠ Some Directory) (map path (f :: rest))) as Hall.
  { cbn. constructor; [by rewrite Hlook | exact Hdir]. }
  unfold uploads_removed, run_request, convert_gif, initial_world, fresh_response,
    nanoid_call, sharp_gif.
  rewrite Hno, Hfl. cbn [map]. step. unfold readFileSync.
  destruct (length (f :: rest) =? 1)%nat eqn:Hlen; step;
    rewrite Hlook, Hframes; step;
    (edestruct (cleanupFiles_ok (path f :: map path rest))
       as (st' & u & -> & Hfs & _); [exact Hall|]);
    cbn in Hfs; unfold drain; step; cbn [fold_left app]; step;
    (split; [try done; by intros ->|]);
    (split; [by rewrite lookup_insert_ne, lookup_insert_eq|]);
    exact (uploads_removed_intro (f :: rest) st st' Hfs).
Qed.
End route_successes.

(** ** The image route when every file converts *)

Lemma write_all_other (cs : list Converted.t) (outs : list Buffer)
    (st : store) (q : string) :
  q ∉ map Converted.path cs → write_all cs outs st !! q = st !! q.
Proof.
  revert outs st. induction cs as [|c cs IH]; intros outs st Hq; [done|].
  destruct outs as [|out outs]; [done|]. cbn [write_all].
  cbn [map] in Hq. apply not_elem_of_cons in Hq as [Hne Hq].
  rewrite IH by exact Hq. by rewrite lookup_insert_ne.
Qed.

(** With distinct artifact paths, each artifact holds its own bytes. *)
Lemma write_all_lookup (cs : list Converted.t) (outs : list Buffer) (st : store) :
  NoDup (map Converted.path cs) → length cs = length outs →
  Forall2 (λ c out, write_all cs outs st !! Converted.path c
                    = Some (RegularFile out)) cs outs.
Proof.
  revert outs st. induction cs as [|c cs IH]; intros outs st Hnd Hlen.
  - destruct outs; [constructor|done].
  - destruct outs as [|out outs]; [done|]. cbn [map] in Hnd.
    apply NoDup_cons in Hnd as [Hnin Hnd]. cbn [write_all]. constructor.
    + rewrite write_all_other by exact Hnin. apply lookup_insert_eq.
    + apply IH; [exact Hnd|]. cbn in Hlen. lia.
Qed.

Lemma zip_converted_loop (cs : list Converted.t) (outs : list Buffer)
    (z : JSZip) (w : world) :
  Forall2 (λ c out, fs w !! Converted.path c = Some (RegularFile out)) cs outs →
  for_of zip_add_converted z cs w =
    (Ok (zip_all (zip (map Converted.convertedName cs) outs) z), w).
Proof.
  intros Hall. revert z.
  induction Hall as [|c out cs outs Hc _ IH]; intros z; [done|].
  cbn [for_of map]. unfold zip_add_converted at 1. step.
  unfold readFileSync. rewrite Hc. apply IH.
Qed.

Lemma match_two_or_more {T R} (l : list T) (a : R) (b : T → R) (c : R) :
  (2 ≤ length l)%nat →
  match l with
  | [] => a
  | [x] => b x
  | _ :: _ :: _ => c
  end = c.
Proof. destruct l as [|x [|y l]]; cbn; intros; (lia || done). Qed.

Section image_success.
Variable nanoid : nat → string.
Variable sharp_toFormat : string → Buffer → option Buffer.
Variable uploadsDir : string.

Lemma artifacts_names (format : string) (n : nat) (fl : list file) :
  map Converted.convertedName (artifacts nanoid uploadsDir format n fl)
  = map (λ f, parse_name (originalname f) +:+ "." +:+ format) fl.
Proof.
  revert n. induction fl as [|f fl IH]; intros n; [done|].
  cbn. by rewrite IH.
Qed.

Lemma artifacts_length (format : string) (n : nat) (fl : list file) :
  length (artifacts nanoid uploadsDir format n fl) = length fl.
Proof.
  revert n. induction fl as [|f fl IH]; intros n; [done|]. cbn. by rewrite IH.
Qed.

(** The conversion loop over files that all convert, with fresh and
    distinct artifact paths. *)
Lemma image_loop_all (format : string) (fl : list file) (outs : list Buffer)
    (acc : list Converted.t) (w : world) :
  Forall2 (converts sharp_toFormat format (fs w)) fl outs →
  NoDup (map Converted.path (artifacts nanoid uploadsDir format (ids w) fl)) →
  Forall (λ c, fs w !! Converted.path c = None)
         (artifacts nanoid uploadsDir format (ids w) fl) →
  ∃ c',
    for_of (image_file nanoid sharp_toFormat uploadsDir format) acc fl w =
      (Ok (acc ++ artifacts nanoid uploadsDir format (ids w) fl),
       mkWorld (write_all (artifacts nanoid uploadsDir format (ids w) fl) outs (fs w))
               (ids w + length fl) c' (cleanup_calls w) (unlink_calls w)
               (doc w) (res w) (pending w)).
Proof.
  revert outs acc w. induction fl as [|f fl IH]; intros outs acc w Hall Hnd Hfresh.
  - apply Forall2_nil_inv_l in Hall as ->.
    exists (console w). destruct w. cbn. by rewrite app_nil_r, Nat.add_0_r.
  - apply Forall2_cons_inv_l in Hall
      as (out & outs' & (data & Hf & Hout) & Hrest & ->).
    destruct w as [st n c cc uc d r pnd]. cbn in Hf, Hrest, Hnd, Hfresh.
    apply NoDup_cons in Hnd as [Hnin Hnd].
    apply Forall_cons in Hfresh as [Ha Hfresh]. cbn in Ha.
    cbn [for_of]. unfold image_file at 1. unfold nanoid_call, sharp_toFile. step.
    unfold readFileSync. rewrite Hf, Hout. step.
    fold (artifact_path uploadsDir (nanoid n) format f).
    set (a := artifact_path uploadsDir (nanoid n) format f) in *.
    rewrite Ha. step.
    edestruct (IH outs' (acc ++ [Converted.make (originalname f)
                                   (parse_name (originalname f) +:+ "." +:+ format) a])
                 (mkWorld (<[a := RegularFile out]> st) (S n)
                          c cc uc d r pnd)) as [c' Hrun].
    + cbn. eapply Forall2_impl; [exact Hrest|].
      intros f' out' (data' & Hf' & Hout'). exists data'. split; [|exact Hout'].
      rewrite lookup_insert_ne; [exact Hf'|].
      intros Heq. rewrite Heq in Ha. congruence.
    + exact Hnd.
    + cbn. apply Forall_forall. intros c0 Hc0.
      rewrite lookup_insert_ne.
      * rewrite Forall_forall in Hfresh. by apply Hfresh.
      * intros Heq. apply Hnin. rewrite Heq.
        apply list_elem_of_In, in_map, list_elem_of_In, Hc0.
    + rewrite Hrun. exists c'. cbn. by rewrite <- app_assoc, Nat.add_succ_r.
Qed.

(** The image route when two or more files are uploaded and all convert. *)
Lemma convert_image_all_result (req : request) (fl : list file)
    (outs : list Buffer) (st : store) :
  toLowerCase (format req) ∈ allowedFormats →
  files req = Some fl → (2 ≤ length fl)%nat →
  Forall2 (converts sharp_toFormat (format req) st) fl outs →
  NoDup (map Converted.path (artifacts nanoid uploadsDir (format req) 0 fl)) →
  Forall (λ c, st !! Converted.path c = None)
         (artifacts nanoid uploadsDir (format req) 0 fl) →
  statusCode (res (run_request
    (convert_image nanoid sharp_toFormat uploadsDir req) st)) = 200 ∧
  sent (res (run_request (convert_image nanoid sharp_toFormat uploadsDir req) st))
    = Some (ZipBuffer
        (zip_all (zip (map (λ f, parse_name (originalname f) +:+ "." +:+ format req) fl)
                      outs) [])) ∧
  headers (res (run_request (convert_image nanoid sharp_toFormat uploadsDir req) st))
    !! "Content-Type" = Some "application/zip" ∧
  headers (res (run_request (convert_image nanoid sharp_toFormat uploadsDir req) st))
    !! "Content-Disposition"
    = Some (attachment ("converted-images-" +:+ format req +:+ "-" +:+
                        nanoid (length fl) +:+ ".zip")) ∧
  uploads_removed fl st
    (run_request (convert_image nanoid sharp_toFormat uploadsDir req) st).
Proof.
  intros Hfmt Hfiles Hlen Hall Hnd Hfresh.
  destruct (some_files req fl Hfiles) as [Hno Hfl];
    [intros ->; cbn in Hlen; lia|].
  set (cs := artifacts nanoid uploadsDir (format req) 0 fl) in *.
  assert (length cs = length outs) as Hcs.
  { unfold cs. rewrite artifacts_length. exact (Forall2_length _ _ _ Hall). }
  unfold uploads_removed, run_request, convert_image, initial_world, fresh_response.
  rewrite bool_decide_true by exact Hfmt. rewrite Hno, Hfl. cbn [negb]. step.
  edestruct (image_loop_all (format req) fl outs []
               (mkWorld st 0 [] [] [] [] (mkResponse 200 ∅ None) []))
    as [c' ->]; [exact Hall | exact Hnd | exact Hfresh |].
  cbn [ids fs app]. fold cs.
  rewrite (match_two_or_more cs)
    by (unfold cs; rewrite artifacts_length; exact Hlen).
  step.
  rewrite (zip_converted_loop cs outs).
  2: { cbn. apply write_all_lookup; [exact Hnd | exact Hcs]. }
  unfold nanoid_call. step.
  assert (∀ f, f ∈ fl → path f ∉ map Converted.path cs) as Hinput.
  { intros f Hf Hin.
    apply list_elem_of_lookup_1 in Hf as [i Hi].
    destruct (Forall2_lookup_l _ _ _ _ _ Hall Hi) as (out & _ & data & Hlook & _).
    apply list_elem_of_In, in_map_iff in Hin as (c & Hc & Hcin%list_elem_of_In).
    rewrite Forall_forall in Hfresh. specialize (Hfresh c Hcin).
    rewrite Hc in Hfresh. congruence. }
  edestruct (cleanupFiles_ok (map path fl ++ map Converted.path cs))
    as (st' & u & -> & Hfs & _).
  { cbn. apply Forall_app. split; apply Forall_forall; intros p Hp.
    - apply list_elem_of_In, in_map_iff in Hp as (f & <- & Hf%list_elem_of_In).
      rewrite write_all_other by exact (Hinput f Hf).
      apply list_elem_of_lookup_1 in Hf as [i Hi].
      destruct (Forall2_lookup_l _ _ _ _ _ Hall Hi) as (out & _ & data & -> & _).
      done.
    - apply list_elem_of_In, in_map_iff in Hp as (c & <- & Hc%list_elem_of_In).
      apply list_elem_of_lookup_1 in Hc as [i Hi].
      destruct (Forall2_lookup_l _ _ _ _ _
                  (write_all_lookup cs outs st Hnd Hcs) Hi) as (out & _ & ->).
      done. }
  cbn in Hfs. unfold drain. step. cbn [fold_left]. step.
  split; [done|]. split.
  { do 2 f_equal. unfold cs. by rewrite artifacts_names. }
  split; [by rewrite lookup_insert_ne, lookup_insert_eq|].
  split; [by rewrite lookup_insert_eq|].
  split.
  - intros f Hf. rewrite Hfs, decide_True; [done|].
    apply elem_of_app. left. apply list_elem_of_In, in_map, list_elem_of_In, Hf.
  - intros q Hq. rewrite Hfs. case_decide as Hin.
    + apply elem_of_app in Hin as [Hin|Hin]; [done|].
      apply list_elem_of_In, in_map_iff in Hin as (c & <- & Hc%list_elem_of_In).
      rewrite Forall_forall in Hfresh. symmetry. by apply Hfresh.
    + apply write_all_other. intros Hin'. apply Hin, elem_of_app. by right.
Qed.
End image_success.

(** ** File names *)


Lemma string_of_list_ascii_app (a b : list ascii) :
  String.string_of_list_ascii (a ++ b)
  = String.string_of_list_ascii a +:+ String.string_of_list_ascii b.
Proof.
  induction a as [|c a IH]; [done|]. cbn [app String.string_of_list_ascii].
  rewrite IH. reflexivity.
Qed.

Lemma list_ascii_of_string_app (a b : string) :
  String.list_ascii_of_string (a +:+ b)
  = String.list_ascii_of_string a ++ String.list_ascii_of_string b.
Proof.
  induction a as [|c a IH]; [done|].
  change (c :: String.list_ascii_of_string (a +:+ b)
          = c :: (String.list_ascii_of_string a ++ String.list_ascii_of_string b)).
  by rewrite IH.
Qed.





Lemma existsb_rev_false {A} (f : A → bool) (l : list A) :
  existsb f l = false → existsb f (rev l) = false.
Proof.
  induction l as [|c l IH]; [done|]. cbn. intros [Hc Hl]%orb_false_iff.
  rewrite existsb_app, IH by exact Hl. cbn. by rewrite Hc.
Qed.

Lemma skip_while_none (f : ascii → bool) (l : list ascii) :
  existsb f l = false → skip_while f l = l.
Proof. destruct l as [|c l]; [done|]. cbn. by intros [-> _]%orb_false_iff. Qed.

Lemma keep_until_none (f : ascii → bool) (l : list ascii) :
  existsb f l = false → keep_until f l = l.
Proof.
  induction l as [|c l IH]; [done|]. cbn. intros [-> Hl]%orb_false_iff.
  by rewrite IH.
Qed.

Lemma keep_until_first (f : ascii → bool) (l r : list ascii) (c : ascii) :
  existsb f l = false → f c = true → keep_until f (l ++ c :: r) = l.
Proof.
  induction l as [|c0 l IH]; cbn.
  - by intros _ ->.
  - intros [-> Hl]%orb_false_iff Hc. by rewrite IH.
Qed.

Lemma skip_to_first (f : ascii → bool) (l r : list ascii) (c : ascii) :
  existsb f l = false → f c = true →
  skip_while (λ c, negb (f c)) (l ++ c :: r) = c :: r.
Proof.
  induction l as [|c0 l IH]; cbn.
  - by intros _ ->.
  - intros [-> Hl]%orb_false_iff Hc. cbn. by apply IH.
Qed.

(** The last component of [stem.ext], reversed, when neither part has a
    slash and [ext] is not empty. *)
Lemma rev_base_stem_ext (stem ext : string) :
  existsb is_slash (String.list_ascii_of_string stem) = false →
  existsb is_slash (String.list_ascii_of_string ext) = false →
  rev_base (stem +:+ "." +:+ ext)
  = rev (String.list_ascii_of_string ext)
    ++ "."%char :: rev (String.list_ascii_of_string stem).
Proof.
  intros Hstem Hext. unfold rev_base.
  rewrite !list_ascii_of_string_app, !rev_app_distr, <- app_assoc.
  cbn [String.list_ascii_of_string rev app].
  assert (existsb is_slash
            (rev (String.list_ascii_of_string ext)
             ++ "."%char :: rev (String.list_ascii_of_string stem)) = false) as Hno.
  { rewrite existsb_app. cbn.
    by rewrite !existsb_rev_false by assumption. }
  rewrite skip_while_none by exact Hno. by apply keep_until_none.
Qed.

(** For a name [stem.ext] without slashes, with a non-empty stem and a
    non-empty extension without dots, Node's [path] module finds the
    extension [.ext] and the name [stem]. *)
Lemma path_of_stem_ext (stem ext : string) :
  stem ≠ EmptyString → ext ≠ EmptyString →
  existsb is_slash (String.list_ascii_of_string stem) = false →
  existsb is_slash (String.list_ascii_of_string ext) = false →
  existsb is_dot (String.list_ascii_of_string ext) = false →
  extname (stem +:+ "." +:+ ext) = "." +:+ ext ∧
  parse_name (stem +:+ "." +:+ ext) = stem.
Proof.
  intros Hstem Hext Hs1 Hs2 Hdot.
  assert (parse_base (stem +:+ "." +:+ ext) = stem +:+ "." +:+ ext) as Hbase.
  { unfold parse_base. rewrite rev_base_stem_ext by assumption.
    rewrite rev_app_distr. cbn [rev]. rewrite !rev_involutive, <- app_assoc.
    rewrite !string_of_list_ascii_app. cbn [app].
    by rewrite !String.string_of_list_ascii_of_string. }
  assert (String.eqb (stem +:+ "." +:+ ext) ".." = false) as Hne.
  { apply String.eqb_neq. intros Heq.
    apply (f_equal String.list_ascii_of_string) in Heq.
    rewrite !list_ascii_of_string_app in Heq.
    apply (f_equal length) in Heq. rewrite !length_app in Heq.
    destruct stem; [done|]. destruct ext; [done|]. cbn in Heq. lia. }
  assert (rev (String.list_ascii_of_string stem) ≠ []) as Hrev.
  { destruct stem as [|c stem]; [done|]. cbn. by destruct (rev _). }
  unfold extname, parse_name. rewrite Hbase, Hne.
  rewrite rev_base_stem_ext by assumption.
  rewrite existsb_app. cbn [existsb]. change (is_dot "."%char) with true.
  rewrite orb_true_l, orb_true_r.
  rewrite skip_to_first, keep_until_first by (by apply existsb_rev_false || done).
  rewrite bool_decide_false by exact Hrev. cbn [orb].
  rewrite !rev_involutive. split.
  - change (String.string_of_list_ascii ("."%char :: String.list_ascii_of_string ext))
      with ("." +:+ String.string_of_list_ascii (String.list_ascii_of_string ext)).
    by rewrite String.string_of_list_ascii_of_string.
  - apply String.string_of_list_ascii_of_string.
Qed.

(** ** The image route: the archive of the artifacts *)

Section image_archive.
Variable nanoid : nat → string.
Variable sharp_toFormat : string → Buffer → option Buffer.
Variable uploadsDir : string.

(** X15.  When two or more files are uploaded and every one converts,
    to artifact paths that are fresh and pairwise distinct, the image
    route answers with a zip: its entries are the re-encoded bytes under
    [<name without extension>.<format>], added in input order (a later
    entry with the same name replaces an earlier one); the attachment is
    [converted-images-<format>-<id>.zip], with the identifier drawn after
    one per file; and afterwards uploads and artifacts are all gone, the
    rest of the store unchanged. *)
Theorem image_all_converted_zipped (req : request) (fl : list file)
    (outs : list Buffer) (st : store) :
  toLowerCase (format req) ∈ allowedFormats →
  files req = Some fl → (2 ≤ length fl)%nat →
  Forall2 (converts sharp_toFormat (format req) st) fl outs →
  NoDup (map Converted.path (artifacts nanoid uploadsDir (format req) 0 fl)) →
  Forall (λ c, st !! Converted.path c = None)
         (artifacts nanoid uploadsDir (format req) 0 fl) →
  statusCode (res (run_request
    (convert_image nanoid sharp_toFormat uploadsDir req) st)) = 200 ∧
  sent (res (run_request (convert_image nanoid sharp_toFormat uploadsDir req) st))
    = Some (ZipBuffer
        (zip_all (zip (map (λ f, parse_name (originalname f) +:+ "." +:+ format req) fl)
                      outs) [])) ∧
  headers (res (run_request (convert_image nanoid sharp_toFormat uploadsDir req) st))
    !! "Content-Type" = Some "application/zip" ∧
  headers (res (run_request (convert_image nanoid sharp_toFormat uploadsDir req) st))
    !! "Content-Disposition"
    = Some (attachment ("converted-images-" +:+ format req +:+ "-" +:+
                        nanoid (length fl) +:+ ".zip")) ∧
  uploads_removed fl st
    (run_request (convert_image nanoid sharp_toFormat uploadsDir req) st).
Proof. apply convert_image_all_result. Qed.

(** X17.  The artifact of a file is named after the file without its
    extension, so two uploads [stem.ext1] and [stem.ext2] that both
    convert become one zip entry [stem.<format>]: it holds the bytes of
    the second file, the first artifact is not in the archive. *)
Theorem image_same_stem_one_entry (req : request) (f1 f2 : file)
    (stem ext1 ext2 : string) (out1 out2 : Buffer) (st : store) :
  toLowerCase (format req) ∈ allowedFormats →
  files req = Some [f1; f2] →
  originalname f1 = stem +:+ "." +:+ ext1 →
  originalname f2 = stem +:+ "." +:+ ext2 →
  stem ≠ EmptyString → ext1 ≠ EmptyString → ext2 ≠ EmptyString →
  existsb is_slash (String.list_ascii_of_string stem) = false →
  existsb (λ c, is_slash c || is_dot c) (String.list_ascii_of_string ext1) = false →
  existsb (λ c, is_slash c || is_dot c) (String.list_ascii_of_string ext2) = false →
  Forall2 (converts sharp_toFormat (format req) st) [f1; f2] [out1; out2] →
  NoDup (map Converted.path (artifacts nanoid uploadsDir (format req) 0 [f1; f2])) →
  Forall (λ c, st !! Converted.path c = None)
         (artifacts nanoid uploadsDir (format req) 0 [f1; f2]) →
  sent (res (run_request (convert_image nanoid sharp_toFormat uploadsDir req) st))
    = Some (ZipBuffer [(stem +:+ "." +:+ format req, out2)]).
Proof.
  intros Hfmt Hfiles Hn1 Hn2 Hstem He1 He2 Hs He1' He2' Hall Hnd Hfresh.
  destruct (convert_image_all_result nanoid sharp_toFormat uploadsDir req
              [f1; f2] [out1; out2] st Hfmt Hfiles)
    as (_ & -> & _); [cbn; lia | exact Hall | exact Hnd | exact Hfresh |].
  assert (∀ ext, existsb (λ c, is_slash c || is_dot c)
                   (String.list_ascii_of_string ext) = false →
                 existsb is_slash (String.list_ascii_of_string ext) = false ∧
                 existsb is_dot (String.list_ascii_of_string ext) = false) as Hsplit.
  { intros ext. induction (String.list_ascii_of_string ext) as [|c l IH]; [done|].
    cbn. intros [[-> ->]%orb_false_iff Hl]%orb_false_iff. cbn. by apply IH. }
  destruct (Hsplit ext1 He1') as [Hsl1 Hd1]. destruct (Hsplit ext2 He2') as [Hsl2 Hd2].
  destruct (path_of_stem_ext stem ext1 Hstem He1 Hs Hsl1 Hd1) as [_ Hp1].
  destruct (path_of_stem_ext stem ext2 Hstem He2 Hs Hsl2 Hd2) as [_ Hp2].
  cbn [map zip zip_with]. rewrite Hn1, Hn2, Hp1, Hp2.
  unfold zip_all. cbn [fold_left fst snd zip_file]. by rewrite String.eqb_refl.
Qed.
End image_archive.

(** ** The upload filter and the stored names *)

Lemma lower_ascii_dot (c : ascii) : is_dot (lower_ascii c) = is_dot c.
Proof. destruct c as [[] [] [] [] [] [] [] []]; reflexivity. Qed.

Lemma lower_ascii_slash (c : ascii) : is_slash (lower_ascii c) = is_slash c.
Proof. destruct c as [[] [] [] [] [] [] [] []]; reflexivity. Qed.

Lemma toLowerCase_keeps (f : ascii → bool) (s : string) :
  (∀ c, f (lower_ascii c) = f c) →
  existsb f (String.list_ascii_of_string (toLowerCase s))
  = existsb f (String.list_ascii_of_string s).
Proof.
  intros Hf. induction s as [|c s IH]; [done|]. cbn. by rewrite Hf, IH.
Qed.

Lemma existsb_keep_until (f g : ascii → bool) (l : list ascii) :
  existsb f l = false → existsb f (keep_until g l) = false.
Proof.
  induction l as [|c l IH]; [done|]. cbn. intros [Hc Hl]%orb_false_iff.
  destruct (g c); [done|]. cbn. by rewrite Hc, IH.
Qed.

Lemma existsb_skip_while (f g : ascii → bool) (l : list ascii) :
  existsb f l = false → existsb f (skip_while g l) = false.
Proof.
  induction l as [|c l IH]; [done|]. cbn. intros [Hc Hl]%orb_false_iff.
  destruct (g c); [by apply IH|]. cbn. by rewrite Hc, Hl.
Qed.

(** X18.  No extension, no upload: a file whose original name has no dot
    is refused by the filter, whatever its MIME type says. *)
Theorem fileFilter_rejects_without_extension (file : Upload.t) :
  existsb is_dot (String.list_ascii_of_string (Upload.originalname file)) = false →
  fileFilter file = Throw (Error "Only image files are allowed!").
Proof.
  intros Hdot. unfold fileFilter, extname.
  assert (existsb is_dot (rev_base (Upload.originalname file)) = false) as ->.
  { unfold rev_base. by apply existsb_keep_until, existsb_skip_while,
      existsb_rev_false. }
  change (allowedTypes_test (toLowerCase EmptyString)) with false.
  by rewrite andb_false_r.
Qed.

Lemma fileFilter_rejects_without_extension_witness :
  existsb is_dot (String.list_ascii_of_string
    (Upload.originalname (Upload.make "holiday-png" "image/png"))) = false ∧
  fileFilter (Upload.make "holiday-png" "image/png")
    = Throw (Error "Only image files are allowed!").
Proof.
  split; [reflexivity|].
  exact (fileFilter_rejects_without_extension
           (Upload.make "holiday-png" "image/png") eq_refl).
Defined.

(** X19.  Every image of an allowed type gets through the filter: a
    name [stem.ext] whose extension is, in any letter case, one of jpeg,
    jpg, png, gif, bmp, webp, tiff, sent with the MIME type [image/t]
    for any [t] of that list ([ext] and [t] need not agree). *)
Theorem fileFilter_accepts_images (stem ext t : string) :
  stem ≠ EmptyString →
  existsb is_slash (String.list_ascii_of_string stem) = false →
  toLowerCase ext ∈ allowedTypes →
  t ∈ allowedTypes →
  fileFilter (Upload.make (stem +:+ "." +:+ ext) ("image/" +:+ t)) = Ok true.
Proof.
  intros Hstem Hslash Hext Ht.
  assert (existsb is_slash (String.list_ascii_of_string ext) = false ∧
          existsb is_dot (String.list_ascii_of_string ext) = false ∧
          ext ≠ EmptyString ∧
          allowedTypes_test ("." +:+ toLowerCase ext) = true) as (Hs & Hd & Hne & Htest).
  { rewrite <- (toLowerCase_keeps is_slash ext lower_ascii_slash).
    rewrite <- (toLowerCase_keeps is_dot ext lower_ascii_dot).
    assert (ext ≠ EmptyString → toLowerCase ext ≠ EmptyString) as Hne'.
    { by destruct ext. }
    assert (toLowerCase ext ≠ EmptyString → ext ≠ EmptyString) as Hne.
    { by destruct ext. }
    unfold allowedTypes in Hext.
    repeat (apply elem_of_cons in Hext as [Hext|Hext];
            [rewrite Hext in *; repeat split; (reflexivity || by apply Hne)|]).
    by apply elem_of_nil in Hext. }
  destruct (path_of_stem_ext stem ext Hstem Hne Hslash Hs Hd) as [Hextname _].
  unfold fileFilter. cbn [Upload.originalname Upload.mimetype].
  rewrite Hextname.
  change (toLowerCase ("." +:+ ext)) with ("." +:+ toLowerCase ext).
  rewrite Htest, andb_true_r.
  unfold allowedTypes in Ht.
  repeat (apply elem_of_cons in Ht as [->|Ht]; [reflexivity|]).
  by apply elem_of_nil in Ht.
Qed.

Lemma fileFilter_accepts_images_witness :
  "cat" ≠ EmptyString ∧
  existsb is_slash (String.list_ascii_of_string "cat") = false ∧
  toLowerCase "JPG" ∈ allowedTypes ∧
  "png" ∈ allowedTypes ∧
  fileFilter (Upload.make ("cat" +:+ "." +:+ "JPG") ("image/" +:+ "png")) = Ok true.
Proof.
  assert (toLowerCase "JPG" ∈ allowedTypes) as Hext.
  { apply (bool_decide_unpack _). vm_compute. exact I. }
  assert ("png" ∈ allowedTypes) as Ht.
  { apply (bool_decide_unpack _). vm_compute. exact I. }
  split; [discriminate|]. split; [reflexivity|]. split; [exact Hext|].
  split; [exact Ht|].
  apply (fileFilter_accepts_images "cat" "JPG" "png");
    [discriminate | reflexivity | exact Hext | exact Ht].
Defined.

(** X20.  A file the filter refuses is answered by the error middleware
    as a server error: status 500 with [Only image files are allowed!],
    not a 400, and the store is not touched. *)
Theorem refused_upload_answered_500 (file : Upload.t) (e : error) (st : store) :
  fileFilter file = Throw e →
  statusCode (res (errorMiddleware e (initial_world st)).2) = 500 ∧
  sent (res (errorMiddleware e (initial_world st)).2)
    = Some (Json "Only image files are allowed!") ∧
  fs (errorMiddleware e (initial_world st)).2 = st.
Proof.
  unfold fileFilter.
  destruct (allowedTypes_test (Upload.mimetype file) && _); [done|].
  by intros [= <-].
Qed.

Lemma refused_upload_answered_500_witness :
  fileFilter (Upload.make "notes.txt" "text/plain")
    = Throw (Error "Only image files are allowed!") ∧
  statusCode (res (errorMiddleware (Error "Only image files are allowed!")
                     (initial_world Fixture.uploads)).2) = 500 ∧
  sent (res (errorMiddleware (Error "Only image files are allowed!")
               (initial_world Fixture.uploads)).2)
    = Some (Json "Only image files are allowed!") ∧
  fs (errorMiddleware (Error "Only image files are allowed!")
        (initial_world Fixture.uploads)).2 = Fixture.uploads.
Proof.
  split; [reflexivity|].
  exact (refused_upload_answered_500 (Upload.make "notes.txt" "text/plain")
           (Error "Only image files are allowed!") Fixture.uploads eq_refl).
Defined.

Lemma unique_name_injective (id1 id2 n1 n2 : string) :
  String.length id1 = String.length id2 →
  id1 +:+ "-" +:+ n1 = id2 +:+ "-" +:+ n2 →
  id1 = id2 ∧ n1 = n2.
Proof.
  revert id2. induction id1 as [|c id1 IH]; intros [|c2 id2]; try done.
  - intros _ Heq. change (String "-" n1 = String "-" n2) in Heq.
    by injection Heq as ->.
  - intros [= Hlen] Heq.
    change (String c (id1 +:+ "-" +:+ n1) = String c2 (id2 +:+ "-" +:+ n2)) in Heq.
    injection Heq as -> Heq. by destruct (IH id2 Hlen Heq) as [-> ->].
Qed.

(** X21.  Uploads stored one after the other get different stored
    names, also when their original names are equal, as long as the two
    identifiers drawn differ and have the same length; drawing the names
    leaves the store alone. *)
Theorem storage_filenames_distinct (nanoid : nat → string) (f1 f2 : Upload.t)
    (w : world) :
  String.length (nanoid (ids w)) = String.length (nanoid (S (ids w))) →
  nanoid (ids w) ≠ nanoid (S (ids w)) →
  ∃ u1 u2 w1 w2,
    storage_filename nanoid f1 w = (Ok u1, w1) ∧
    storage_filename nanoid f2 w1 = (Ok u2, w2) ∧
    u1 ≠ u2 ∧ fs w2 = fs w.
Proof.
  intros Hlen Hne. destruct w as [st n c cc uc d r pnd].
  unfold storage_filename, nanoid_call. step.
  eexists _, _, _, _. split; [reflexivity|]. split; [reflexivity|].
  split; [|reflexivity].
  intros Heq. by destruct (unique_name_injective _ _ _ _ Hlen Heq).
Qed.

Lemma storage_filenames_distinct_witness :
  String.length (alternating_ids (ids (initial_world Fixture.uploads)))
    = String.length (alternating_ids (S (ids (initial_world Fixture.uploads)))) ∧
  alternating_ids (ids (initial_world Fixture.uploads))
    ≠ alternating_ids (S (ids (initial_world Fixture.uploads))) ∧
  ∃ u1 u2 w1 w2,
    storage_filename alternating_ids (Upload.make "cat.jpg" "image/jpeg")
      (initial_world Fixture.uploads) = (Ok u1, w1) ∧
    storage_filename alternating_ids (Upload.make "cat.jpg" "image/jpeg") w1
      = (Ok u2, w2) ∧
    u1 ≠ u2 ∧ fs w2 = fs (initial_world Fixture.uploads).
Proof.
  split; [reflexivity|]. split; [discriminate|].
  apply (storage_filenames_distinct alternating_ids
           (Upload.make "cat.jpg" "image/jpeg") (Upload.make "cat.jpg" "image/jpeg")
           (initial_world Fixture.uploads)); [reflexivity | discriminate].
Defined.

(** ** The further properties on concrete requests *)

Ltac by_decision := apply (bool_decide_unpack _); vm_compute; exact I.

Lemma no_files_rejected_without_effects_witness :
  no_files (mkRequest (Some []) "png") = true ∧
  answered_only 400 "No files uploaded" Fixture.uploads
    (run_request (Fixture.convert_zip (mkRequest (Some []) "png")) Fixture.uploads) ∧
  answered_only 400 "No files uploaded" Fixture.uploads
    (run_request (Fixture.convert_pdf (mkRequest (Some []) "png")) Fixture.uploads) ∧
  answered_only 400 "No files uploaded" Fixture.uploads
    (run_request (Fixture.convert_word (mkRequest (Some []) "png")) Fixture.uploads) ∧
  answered_only 400 "No files uploaded" Fixture.uploads
    (run_request (Fixture.convert_gif (mkRequest (Some []) "png")) Fixture.uploads) ∧
  (toLowerCase (format (mkRequest (Some []) "png")) ∈ allowedFormats →
   answered_only 400 "No files uploaded" Fixture.uploads
     (run_request (Fixture.convert_image (mkRequest (Some []) "png"))
        Fixture.uploads)).
Proof.
  split; [reflexivity|].
  exact (no_files_rejected_without_effects Fixture.nanoid Fixture.sharp_metadata
           Fixture.pdfkit_image Fixture.sharp_frames Fixture.sharp_toFormat
           Fixture.pageWidth Fixture.pageHeight Fixture.uploadsDir
           (mkRequest (Some []) "png") Fixture.uploads eq_refl).
Defined.

Lemma unsupported_format_leaves_uploads_witness :
  (toLowerCase (format (mkRequest (Some [Fixture.f_cat]) "SVG")) ∉ allowedFormats) ∧
  answered_only 400 "Unsupported format" Fixture.uploads
    (run_request (Fixture.convert_image (mkRequest (Some [Fixture.f_cat]) "SVG"))
       Fixture.uploads).
Proof.
  assert (toLowerCase (format (mkRequest (Some [Fixture.f_cat]) "SVG"))
          ∉ allowedFormats) as Hfmt.
  { apply (bool_decide_eq_false_1 _). vm_compute. reflexivity. }
  split; [exact Hfmt|].
  exact (unsupported_format_leaves_uploads Fixture.nanoid Fixture.sharp_toFormat
           Fixture.uploadsDir (mkRequest (Some [Fixture.f_cat]) "SVG")
           Fixture.uploads Hfmt).
Defined.

Lemma zip_unreadable_file_fails_witness :
  files Fixture.image_and_gone = Some ([Fixture.f_cat] ++ Fixture.f_gone :: []) ∧
  Forall2 (λ f d, Fixture.uploads !! path f = Some (RegularFile d))
          [Fixture.f_cat] [Fixture.cat] ∧
  readFileSync Fixture.uploads (path Fixture.f_gone)
    = Throw (Error "ENOENT: no such file or directory, open") ∧
  answered_only 500 (message (Error "ENOENT: no such file or directory, open"))
    Fixture.uploads
    (run_request (Fixture.convert_zip Fixture.image_and_gone) Fixture.uploads).
Proof.
  assert (Forall2 (λ f d, Fixture.uploads !! path f = Some (RegularFile d))
            [Fixture.f_cat] [Fixture.cat]) as Hpre.
  { repeat constructor; vm_compute; reflexivity. }
  assert (readFileSync Fixture.uploads (path Fixture.f_gone)
          = Throw (Error "ENOENT: no such file or directory, open")) as Hgone.
  { vm_compute. reflexivity. }
  split; [reflexivity|]. split; [exact Hpre|]. split; [exact Hgone|].
  exact (zip_unreadable_file_fails Fixture.nanoid Fixture.image_and_gone
           [Fixture.f_cat] [] Fixture.f_gone [Fixture.cat] _ Fixture.uploads
           eq_refl Hpre Hgone).
Defined.

Lemma gif_first_file_failure_witness :
  files (mkRequest (Some [Fixture.f_junk; Fixture.f_cat]) EmptyString)
    = Some (Fixture.f_junk :: [Fixture.f_cat]) ∧
  (∀ data, Fixture.uploads !! path Fixture.f_junk = Some (RegularFile data) →
           Fixture.sharp_frames data = None) ∧
  statusCode (res (run_request
    (Fixture.convert_gif (mkRequest (Some [Fixture.f_junk; Fixture.f_cat]) EmptyString))
    Fixture.uploads)) = 500 ∧
  (∃ msg, sent (res (run_request
    (Fixture.convert_gif (mkRequest (Some [Fixture.f_junk; Fixture.f_cat]) EmptyString))
    Fixture.uploads)) = Some (Json msg)) ∧
  cleanup_calls (run_request
    (Fixture.convert_gif (mkRequest (Some [Fixture.f_junk; Fixture.f_cat]) EmptyString))
    Fixture.uploads) = [] ∧
  fs (run_request
    (Fixture.convert_gif (mkRequest (Some [Fixture.f_junk; Fixture.f_cat]) EmptyString))
    Fixture.uploads) = Fixture.uploads.
Proof.
  assert (∀ data, Fixture.uploads !! path Fixture.f_junk = Some (RegularFile data) →
                  Fixture.sharp_frames data = None) as Hbad.
  { intros data Hlook. vm_compute in Hlook. injection Hlook as <-. reflexivity. }
  split; [reflexivity|]. split; [exact Hbad|].
  exact (gif_first_file_failure Fixture.nanoid Fixture.sharp_frames
           (mkRequest (Some [Fixture.f_junk; Fixture.f_cat]) EmptyString)
           Fixture.f_junk [Fixture.f_cat] Fixture.uploads eq_refl Hbad).
Defined.

Lemma zip_success_removes_uploads_witness :
  files Fixture.two_images = Some [Fixture.f_cat; Fixture.f_dog] ∧
  [Fixture.f_cat; Fixture.f_dog] ≠ [] ∧
  Forall2 (λ f d, Fixture.uploads !! path f = Some (RegularFile d))
          [Fixture.f_cat; Fixture.f_dog] [Fixture.cat; Fixture.dog] ∧
  headers (res (run_request (Fixture.convert_zip Fixture.two_images) Fixture.uploads))
    !! "Content-Type" = Some "application/zip" ∧
  headers (res (run_request (Fixture.convert_zip Fixture.two_images) Fixture.uploads))
    !! "Content-Disposition"
    = Some (attachment ("converted-photos-" +:+ Fixture.nanoid 0 +:+ ".zip")) ∧
  uploads_removed [Fixture.f_cat; Fixture.f_dog] Fixture.uploads
    (run_request (Fixture.convert_zip Fixture.two_images) Fixture.uploads).
Proof.
  assert (Forall2 (λ f d, Fixture.uploads !! path f = Some (RegularFile d))
            [Fixture.f_cat; Fixture.f_dog] [Fixture.cat; Fixture.dog]) as Hread.
  { repeat constructor; vm_compute; reflexivity. }
  split; [reflexivity|]. split; [discriminate|]. split; [exact Hread|].
  apply (zip_success_removes_uploads Fixture.nanoid Fixture.two_images
           [Fixture.f_cat; Fixture.f_dog] [Fixture.cat; Fixture.dog] Fixture.uploads);
    [reflexivity | discriminate | exact Hread].
Defined.

Lemma pdf_cleanup_waits_for_finish_witness :
  files Fixture.three_files = Some [Fixture.f_cat; Fixture.f_junk; Fixture.f_dog] ∧
  [Fixture.f_cat; Fixture.f_junk; Fixture.f_dog] ≠ [] ∧
  (∃ pages,
     sent (res (Fixture.convert_pdf Fixture.three_files
                  (initial_world Fixture.uploads)).2) = Some (PdfStream pages)) ∧
  cleanup_calls (Fixture.convert_pdf Fixture.three_files
                   (initial_world Fixture.uploads)).2 = [] ∧
  fs (Fixture.convert_pdf Fixture.three_files (initial_world Fixture.uploads)).2
    = Fixture.uploads ∧
  pending (Fixture.convert_pdf Fixture.three_files (initial_world Fixture.uploads)).2
    = [OnFinish (map path [Fixture.f_cat; Fixture.f_junk; Fixture.f_dog])].
Proof.
  split; [reflexivity|]. split; [discriminate|].
  apply (pdf_cleanup_waits_for_finish Fixture.nanoid Fixture.sharp_metadata
           Fixture.pdfkit_image Fixture.pageWidth Fixture.pageHeight
           Fixture.three_files [Fixture.f_cat; Fixture.f_junk; Fixture.f_dog]
           Fixture.uploads); [reflexivity | discriminate].
Defined.

Lemma pdf_finish_removes_uploads_witness :
  files Fixture.three_files = Some [Fixture.f_cat; Fixture.f_junk; Fixture.f_dog] ∧
  [Fixture.f_cat; Fixture.f_junk; Fixture.f_dog] ≠ [] ∧
  Forall (λ p, Fixture.uploads !! p ≠ Some Directory)
         (map path [Fixture.f_cat; Fixture.f_junk; Fixture.f_dog]) ∧
  headers (res (run_request (Fixture.convert_pdf Fixture.three_files)
                  Fixture.uploads)) !! "Content-Type" = Some "application/pdf" ∧
  headers (res (run_request (Fixture.convert_pdf Fixture.three_files)
                  Fixture.uploads)) !! "Content-Disposition"
    = Some (attachment ("converted-photos-" +:+ Fixture.nanoid 0 +:+ ".pdf")) ∧
  uploads_removed [Fixture.f_cat; Fixture.f_junk; Fixture.f_dog] Fixture.uploads
    (run_request (Fixture.convert_pdf Fixture.three_files) Fixture.uploads).
Proof.
  assert (Forall (λ p, Fixture.uploads !! p ≠ Some Directory)
            (map path [Fixture.f_cat; Fixture.f_junk; Fixture.f_dog])) as Hdir.
  { repeat constructor; vm_compute; discriminate. }
  split; [reflexivity|]. split; [discriminate|]. split; [exact Hdir|].
  apply (pdf_finish_removes_uploads Fixture.nanoid Fixture.sharp_metadata
           Fixture.pdfkit_image Fixture.pageWidth Fixture.pageHeight
           Fixture.three_files [Fixture.f_cat; Fixture.f_junk; Fixture.f_dog]
           Fixture.uploads); [reflexivity | discriminate | exact Hdir].
Defined.

Lemma pdf_nothing_decodes_all_blank_witness :
  files (mkRequest (Some [Fixture.f_junk; Fixture.f_gone]) EmptyString)
    = Some [Fixture.f_junk; Fixture.f_gone] ∧
  [Fixture.f_junk; Fixture.f_gone] ≠ [] ∧
  Forall (λ f, decodes Fixture.sharp_metadata Fixture.uploads f = false)
         [Fixture.f_junk; Fixture.f_gone] ∧
  statusCode (res (run_request
    (Fixture.convert_pdf (mkRequest (Some [Fixture.f_junk; Fixture.f_gone]) EmptyString))
    Fixture.uploads)) = 200 ∧
  sent (res (run_request
    (Fixture.convert_pdf (mkRequest (Some [Fixture.f_junk; Fixture.f_gone]) EmptyString))
    Fixture.uploads)) = Some (PdfStream (replicate 2 [])).
Proof.
  assert (Forall (λ f, decodes Fixture.sharp_metadata Fixture.uploads f = false)
            [Fixture.f_junk; Fixture.f_gone]) as Hnone.
  { repeat constructor; vm_compute; reflexivity. }
  split; [reflexivity|]. split; [discriminate|]. split; [exact Hnone|].
  apply (pdf_nothing_decodes_all_blank Fixture.nanoid Fixture.sharp_metadata
           Fixture.pdfkit_image Fixture.pageWidth Fixture.pageHeight
           (mkRequest (Some [Fixture.f_junk; Fixture.f_gone]) EmptyString)
           [Fixture.f_junk; Fixture.f_gone] Fixture.uploads);
    [reflexivity | discriminate | exact Hnone].
Defined.

Lemma pdf_pages_in_input_order_witness :
  files Fixture.three_files = Some [Fixture.f_cat; Fixture.f_junk; Fixture.f_dog] ∧
  sent (res (run_request (Fixture.convert_pdf Fixture.three_files) Fixture.uploads))
    = Some (PdfStream
        (map (pdf_page_of Fixture.sharp_metadata Fixture.pdfkit_image
                Fixture.pageWidth Fixture.pageHeight Fixture.uploads)
             [Fixture.f_cat; Fixture.f_junk; Fixture.f_dog])) ∧
  map (pdf_page_of Fixture.sharp_metadata Fixture.pdfkit_image
         Fixture.pageWidth Fixture.pageHeight Fixture.uploads)
      [Fixture.f_cat; Fixture.f_junk; Fixture.f_dog] !! 0%nat
    = Some [Fixture.cat_placement] ∧
  ∃ f, [Fixture.f_cat; Fixture.f_junk; Fixture.f_dog] !! 0%nat = Some f ∧
       (length [Fixture.cat_placement] ≤ 1)%nat ∧
       ∀ pl, pl ∈ [Fixture.cat_placement] → image_path pl = path f.
Proof.
  split; [reflexivity|]. split; [vm_compute; reflexivity|].
  split; [vm_compute; reflexivity|].
  apply (pdf_pages_in_input_order Fixture.nanoid Fixture.sharp_metadata
           Fixture.pdfkit_image Fixture.pageWidth Fixture.pageHeight
           Fixture.three_files [Fixture.f_cat; Fixture.f_junk; Fixture.f_dog]
           Fixture.uploads
           (map (pdf_page_of Fixture.sharp_metadata Fixture.pdfkit_image
                   Fixture.pageWidth Fixture.pageHeight Fixture.uploads)
                [Fixture.f_cat; Fixture.f_junk; Fixture.f_dog]) 0%nat
           [Fixture.cat_placement]);
    [reflexivity | vm_compute; reflexivity | vm_compute; reflexivity].
Defined.

Lemma word_embeds_every_readable_file_witness :
  files (mkRequest (Some [Fixture.f_junk; Fixture.f_cat]) EmptyString)
    = Some [Fixture.f_junk; Fixture.f_cat] ∧
  [Fixture.f_junk; Fixture.f_cat] ≠ [] ∧
  Forall2 (λ f d, Fixture.uploads !! path f = Some (RegularFile d))
          [Fixture.f_junk; Fixture.f_cat] [Fixture.junk; Fixture.cat] ∧
  sent (res (run_request
    (Fixture.convert_word (mkRequest (Some [Fixture.f_junk; Fixture.f_cat]) EmptyString))
    Fixture.uploads))
    = Some (DocxBuffer (map (λ d, mkParagraph d 400 300) [Fixture.junk; Fixture.cat])) ∧
  headers (res (run_request
    (Fixture.convert_word (mkRequest (Some [Fixture.f_junk; Fixture.f_cat]) EmptyString))
    Fixture.uploads)) !! "Content-Disposition"
    = Some (attachment ("converted-photos-" +:+ Fixture.nanoid 0 +:+ ".docx")) ∧
  uploads_removed [Fixture.f_junk; Fixture.f_cat] Fixture.uploads
    (run_request
       (Fixture.convert_word (mkRequest (Some [Fixture.f_junk; Fixture.f_cat]) EmptyString))
       Fixture.uploads).
Proof.
  assert (Forall2 (λ f d, Fixture.uploads !! path f = Some (RegularFile d))
            [Fixture.f_junk; Fixture.f_cat] [Fixture.junk; Fixture.cat]) as Hread.
  { repeat constructor; vm_compute; reflexivity. }
  split; [reflexivity|]. split; [discriminate|]. split; [exact Hread|].
  apply (word_embeds_every_readable_file Fixture.nanoid
           (mkRequest (Some [Fixture.f_junk; Fixture.f_cat]) EmptyString)
           [Fixture.f_junk; Fixture.f_cat] [Fixture.junk; Fixture.cat]
           Fixture.uploads); [reflexivity | discriminate | exact Hread].
Defined.

Lemma gif_success_first_frame_and_cleanup_witness :
  files Fixture.one_image = Some (Fixture.f_cat :: []) ∧
  Fixture.uploads !! path Fixture.f_cat = Some (RegularFile Fixture.cat) ∧
  Fixture.sharp_frames Fixture.cat = Some [Fixture.cat] ∧
  Forall (λ p, Fixture.uploads !! p ≠ Some Directory) (map path []) ∧
  (@nil file = [] →
   sent (res (run_request (Fixture.convert_gif Fixture.one_image) Fixture.uploads))
     = Some (GifBuffer (mkGif (take 1 [Fixture.cat]) 500 0))) ∧
  headers (res (run_request (Fixture.convert_gif Fixture.one_image) Fixture.uploads))
    !! "Content-Type" = Some "image/gif" ∧
  uploads_removed (Fixture.f_cat :: []) Fixture.uploads
    (run_request (Fixture.convert_gif Fixture.one_image) Fixture.uploads).
Proof.
  split; [reflexivity|]. split; [vm_compute; reflexivity|]. split; [reflexivity|].
  split; [constructor|].
  apply (gif_success_first_frame_and_cleanup Fixture.nanoid Fixture.sharp_frames
           Fixture.one_image Fixture.f_cat [] Fixture.cat [Fixture.cat]
           Fixture.uploads);
    [reflexivity | vm_compute; reflexivity | reflexivity | constructor].
Defined.

Lemma image_all_converted_zipped_witness :
  toLowerCase (format (mkRequest (Some [Fixture.f_cat; Fixture.f_dog]) "png"))
    ∈ allowedFormats ∧
  files (mkRequest (Some [Fixture.f_cat; Fixture.f_dog]) "png")
    = Some [Fixture.f_cat; Fixture.f_dog] ∧
  (2 ≤ length [Fixture.f_cat; Fixture.f_dog])%nat ∧
  Forall2 (converts Fixture.sharp_toFormat "png" Fixture.uploads)
          [Fixture.f_cat; Fixture.f_dog] [Fixture.cat; Fixture.dog] ∧
  NoDup (map Converted.path
           (artifacts Fixture.nanoid Fixture.uploadsDir "png" 0
              [Fixture.f_cat; Fixture.f_dog])) ∧
  Forall (λ c, Fixture.uploads !! Converted.path c = None)
         (artifacts Fixture.nanoid Fixture.uploadsDir "png" 0
            [Fixture.f_cat; Fixture.f_dog]) ∧
  statusCode (res (run_request
    (Fixture.convert_image (mkRequest (Some [Fixture.f_cat; Fixture.f_dog]) "png"))
    Fixture.uploads)) = 200 ∧
  sent (res (run_request
    (Fixture.convert_image (mkRequest (Some [Fixture.f_cat; Fixture.f_dog]) "png"))
    Fixture.uploads))
    = Some (ZipBuffer
        (zip_all (zip (map (λ f, parse_name (originalname f) +:+ "." +:+ "png")
                           [Fixture.f_cat; Fixture.f_dog])
                      [Fixture.cat; Fixture.dog]) [])) ∧
  headers (res (run_request
    (Fixture.convert_image (mkRequest (Some [Fixture.f_cat; Fixture.f_dog]) "png"))
    Fixture.uploads)) !! "Content-Type" = Some "application/zip" ∧
  headers (res (run_request
    (Fixture.convert_image (mkRequest (Some [Fixture.f_cat; Fixture.f_dog]) "png"))
    Fixture.uploads)) !! "Content-Disposition"
    = Some (attachment ("converted-images-" +:+ "png" +:+ "-" +:+
                        Fixture.nanoid 2 +:+ ".zip")) ∧
  uploads_removed [Fixture.f_cat; Fixture.f_dog] Fixture.uploads
    (run_request
       (Fixture.convert_image (mkRequest (Some [Fixture.f_cat; Fixture.f_dog]) "png"))
       Fixture.uploads).
Proof.
  assert (toLowerCase (format (mkRequest (Some [Fixture.f_cat; Fixture.f_dog]) "png"))
          ∈ allowedFormats) as Hfmt by by_decision.
  assert (Forall2 (converts Fixture.sharp_toFormat "png" Fixture.uploads)
            [Fixture.f_cat; Fixture.f_dog] [Fixture.cat; Fixture.dog]) as Hall.
  { repeat constructor.
    - exists Fixture.cat. split; [vm_compute; reflexivity | reflexivity].
    - exists Fixture.dog. split; [vm_compute; reflexivity | reflexivity]. }
  assert (NoDup (map Converted.path
            (artifacts Fixture.nanoid Fixture.uploadsDir "png" 0
               [Fixture.f_cat; Fixture.f_dog]))) as Hnd by by_decision.
  assert (Forall (λ c, Fixture.uploads !! Converted.path c = None)
            (artifacts Fixture.nanoid Fixture.uploadsDir "png" 0
               [Fixture.f_cat; Fixture.f_dog])) as Hfresh.
  { repeat constructor; vm_compute; reflexivity. }
  split; [exact Hfmt|]. split; [reflexivity|]. split; [cbn; lia|].
  split; [exact Hall|]. split; [exact Hnd|]. split; [exact Hfresh|].
  apply (image_all_converted_zipped Fixture.nanoid Fixture.sharp_toFormat
           Fixture.uploadsDir (mkRequest (Some [Fixture.f_cat; Fixture.f_dog]) "png")
           [Fixture.f_cat; Fixture.f_dog] [Fixture.cat; Fixture.dog] Fixture.uploads);
    [exact Hfmt | reflexivity | cbn; lia | exact Hall | exact Hnd | exact Hfresh].
Defined.

Lemma image_same_stem_one_entry_witness :
  toLowerCase (format (mkRequest
    (Some [Fixture.f_cat; mkFile "cat.png" (path Fixture.f_dog)]) "webp"))
    ∈ allowedFormats ∧
  files (mkRequest (Some [Fixture.f_cat; mkFile "cat.png" (path Fixture.f_dog)]) "webp")
    = Some [Fixture.f_cat; mkFile "cat.png" (path Fixture.f_dog)] ∧
  originalname Fixture.f_cat = "cat" +:+ "." +:+ "jpg" ∧
  originalname (mkFile "cat.png" (path Fixture.f_dog)) = "cat" +:+ "." +:+ "png" ∧
  "cat" ≠ EmptyString ∧ "jpg" ≠ EmptyString ∧ "png" ≠ EmptyString ∧
  existsb is_slash (String.list_ascii_of_string "cat") = false ∧
  existsb (λ c, is_slash c || is_dot c) (String.list_ascii_of_string "jpg") = false ∧
  existsb (λ c, is_slash c || is_dot c) (String.list_ascii_of_string "png") = false ∧
  Forall2 (converts Fixture.sharp_toFormat "webp" Fixture.uploads)
          [Fixture.f_cat; mkFile "cat.png" (path Fixture.f_dog)]
          [Fixture.cat; Fixture.dog] ∧
  NoDup (map Converted.path
           (artifacts Fixture.nanoid Fixture.uploadsDir "webp" 0
              [Fixture.f_cat; mkFile "cat.png" (path Fixture.f_dog)])) ∧
  Forall (λ c, Fixture.uploads !! Converted.path c = None)
         (artifacts Fixture.nanoid Fixture.uploadsDir "webp" 0
            [Fixture.f_cat; mkFile "cat.png" (path Fixture.f_dog)]) ∧
  sent (res (run_request
    (Fixture.convert_image (mkRequest
       (Some [Fixture.f_cat; mkFile "cat.png" (path Fixture.f_dog)]) "webp"))
    Fixture.uploads))
    = Some (ZipBuffer [("cat" +:+ "." +:+ "webp", Fixture.dog)]).
Proof.
  assert (toLowerCase (format (mkRequest
            (Some [Fixture.f_cat; mkFile "cat.png" (path Fixture.f_dog)]) "webp"))
          ∈ allowedFormats) as Hfmt by by_decision.
  assert (Forall2 (converts Fixture.sharp_toFormat "webp" Fixture.uploads)
            [Fixture.f_cat; mkFile "cat.png" (path Fixture.f_dog)]
            [Fixture.cat; Fixture.dog]) as Hall.
  { repeat constructor.
    - exists Fixture.cat. split; [vm_compute; reflexivity | reflexivity].
    - exists Fixture.dog. split; [vm_compute; reflexivity | reflexivity]. }
  assert (NoDup (map Converted.path
            (artifacts Fixture.nanoid Fixture.uploadsDir "webp" 0
               [Fixture.f_cat; mkFile "cat.png" (path Fixture.f_dog)]))) as Hnd
    by by_decision.
  assert (Forall (λ c, Fixture.uploads !! Converted.path c = None)
            (artifacts Fixture.nanoid Fixture.uploadsDir "webp" 0
               [Fixture.f_cat; mkFile "cat.png" (path Fixture.f_dog)])) as Hfresh.
  { repeat constructor; vm_compute; reflexivity. }
  split; [exact Hfmt|]. do 3 (split; [reflexivity|]).
  do 3 (split; [discriminate|]). do 3 (split; [reflexivity|]).
  split; [exact Hall|]. split; [exact Hnd|]. split; [exact Hfresh|].
  apply (image_same_stem_one_entry Fixture.nanoid Fixture.sharp_toFormat
           Fixture.uploadsDir
           (mkRequest (Some [Fixture.f_cat; mkFile "cat.png" (path Fixture.f_dog)]) "webp")
           Fixture.f_cat (mkFile "cat.png" (path Fixture.f_dog))
           "cat" "jpg" "png" Fixture.cat Fixture.dog Fixture.uploads);
    [exact Hfmt | reflexivity | reflexivity | reflexivity
    | discriminate | discriminate | discriminate
    | reflexivity | reflexivity | reflexivity
    | exact Hall | exact Hnd | exact Hfresh].
Defined.

(** ** Every request is answered, and only its own files are touched *)

Lemma cleanup_loop_contained (paths : list string) (w : world) :
  ∃ r st' uc',
    forEach unlink_if_exists paths w =
      (r, mkWorld st' (ids w) (console w) (cleanup_calls w) uc'
                  (doc w) (res w) (pending w)) ∧
    ∀ q, q ∉ paths → st' !! q = fs w !! q.
Proof.
  revert w. induction paths as [|p rest IH]; intros w.
  - exists (Ok tt), (fs w), (unlink_calls w). by destruct w.
  - destruct w as [st n c cc uc d r pnd]. cbn [forEach].
    unfold unlink_if_exists at 1. step. unfold existsSync, unlinkSync.
    destruct (st !! p) as [[data|]|] eqn:Hlook; step; rewrite ?Hlook; step.
    + destruct (IH (mkWorld (delete p st) n c cc (uc ++ [p]) d r pnd))
        as (r' & st' & uc' & -> & Hfs). cbn in Hfs.
      eexists _, _, _. split; [reflexivity|]. intros q Hq.
      apply not_elem_of_cons in Hq as [Hne Hq].
      rewrite Hfs by exact Hq. by rewrite lookup_delete_ne.
    + eexists _, _, _. split; [reflexivity|]. done.
    + destruct (IH (mkWorld st n c cc uc d r pnd)) as (r' & st' & uc' & -> & Hfs).
      cbn in Hfs. eexists _, _, _. split; [reflexivity|]. intros q Hq.
      apply not_elem_of_cons in Hq as [Hne Hq]. by apply Hfs.
Qed.

Lemma cleanupFiles_contained (paths : list string) (w : world) :
  ∃ r st' uc',
    cleanupFiles paths w =
      (r, mkWorld st' (ids w) (console w) (cleanup_calls w ++ [paths]) uc'
                  (doc w) (res w) (pending w)) ∧
    ∀ q, q ∉ paths → st' !! q = fs w !! q.
Proof.
  destruct w as [st n c cc uc d r pnd]. unfold cleanupFiles. step.
  destruct (cleanup_loop_contained paths (mkWorld st n c (cc ++ [paths]) uc d r pnd))
    as (r' & st' & uc' & -> & Hfs).
  destruct r' as [[]|e]; by eexists _, _, _.
Qed.

(** The ZIP loop only reads. *)
Lemma zip_loop_frame (fl : list file) (z : JSZip) (filePaths : list string)
    (w : world) :
  ∃ r, for_of zip_add (z, filePaths) fl w = (r, w) ∧
       ∀ z' fp, r = Ok (z', fp) → fp = filePaths ++ map path fl.
Proof.
  revert z filePaths. induction fl as [|f fl IH]; intros z filePaths.
  - eexists. split; [reflexivity|]. intros z' fp [= _ <-]. by rewrite app_nil_r.
  - cbn [for_of]. unfold zip_add at 1. step.
    destruct (readFileSync (fs w) (path f)) as [data|e].
    + destruct (IH (zip_file (originalname f) data z) (filePaths ++ [path f]))
        as (r & -> & Hr).
      eexists. split; [reflexivity|]. intros z' fp Heq.
      rewrite (Hr z' fp Heq), <- app_assoc. done.
    + eexists. split; [reflexivity|]. done.
Qed.

Ltac status_ok := first [ by left | by right; left | by right; right; left ].

Section shapes.
Variable nanoid : nat → string.
Variable sharp_metadata : Buffer → option metadata.
Variable pdfkit_image : Buffer → bool.
Variable sharp_frames : Buffer → option (list frame).
Variables pageWidth pageHeight : float.

Lemma zip_run_shape (req : request) (st : store) :
  answered (run_request (convert_zip nanoid req) st) ∧
  others_untouched (map path (req_files req)) st
    (run_request (convert_zip nanoid req) st).
Proof.
  unfold answered, others_untouched, run_request, convert_zip, initial_world,
    fresh_response, nanoid_call.
  destruct (no_files req); step.
  { split; [split; [eauto | status_ok] | done]. }
  destruct (zip_loop_frame (req_files req) [] []
              (mkWorld st 0 [] [] [] [] (mkResponse 200 ∅ None) []))
    as (r & -> & Hr).
  destruct r as [[z fp]|e]; step.
  - rewrite (Hr z fp eq_refl). cbn [app].
    edestruct (cleanupFiles_contained (map path (req_files req)))
      as (r' & st' & uc' & -> & Hfs).
    cbn in Hfs. destruct r' as [[]|e]; step;
      (split; [split; [eauto | status_ok] | exact Hfs]).
  - split; [split; [eauto | status_ok] | done].
Qed.

Lemma pdf_run_shape (req : request) (st : store) :
  answered (run_request
    (convert_pdf nanoid sharp_metadata pdfkit_image pageWidth pageHeight req) st) ∧
  others_untouched (map path (req_files req)) st (run_request
    (convert_pdf nanoid sharp_metadata pdfkit_image pageWidth pageHeight req) st).
Proof.
  unfold answered, others_untouched, run_request, convert_pdf, initial_world,
    fresh_response, nanoid_call, doc_end.
  destruct (no_files req); step.
  { split; [split; [eauto | status_ok] | done]. }
  edestruct pdf_loop as [c' ->]. step. unfold drain. step.
  cbn [fold_left app run_deferred].
  edestruct (cleanupFiles_contained (map path (req_files req)))
    as (r' & st' & uc' & -> & Hfs).
  cbn in Hfs. step. split; [split; [eauto | status_ok] | exact Hfs].
Qed.

Lemma word_run_shape (req : request) (st : store) :
  answered (run_request (convert_word nanoid req) st) ∧
  others_untouched (map path (req_files req)) st
    (run_request (convert_word nanoid req) st).
Proof.
  unfold answered, others_untouched, run_request, convert_word, initial_world,
    fresh_response, nanoid_call.
  destruct (no_files req); step.
  { split; [split; [eauto | status_ok] | done]. }
  edestruct word_loop as [c' ->]. step.
  edestruct (cleanupFiles_contained (map path (req_files req)))
    as (r' & st' & uc' & -> & Hfs).
  cbn in Hfs. destruct r' as [[]|e]; step;
    (split; [split; [eauto | status_ok] | exact Hfs]).
Qed.

Lemma gif_run_shape (req : request) (st : store) :
  answered (run_request (convert_gif nanoid sharp_frames req) st) ∧
  others_untouched (map path (req_files req)) st
    (run_request (convert_gif nanoid sharp_frames req) st).
Proof.
  unfold answered, others_untouched, run_request, convert_gif, initial_world,
    fresh_response, nanoid_call, sharp_gif.
  destruct (no_files req); step.
  { split; [split; [eauto | status_ok] | done]. }
  destruct (req_files req) as [|f rest]; cbn [map]; step.
  { split; [split; [eauto | status_ok] | done]. }
  unfold readFileSync.
  destruct (st !! path f) as [[data|]|] eqn:Hlook;
    [destruct (sharp_frames data) as [frames|] eqn:Hframes| |];
    destruct (length (f :: rest) =? 1)%nat; step;
    rewrite ?Hlook; step; rewrite ?Hframes; step;
    try (split; [split; [eauto | status_ok] | done]);
    (edestruct (cleanupFiles_contained (path f :: map path rest))
       as (r' & st' & uc' & -> & Hfs));
    cbn in Hfs; destruct r' as [[]|e]; step;
    (split; [split; [eauto | status_ok] | exact Hfs]).
Qed.
End shapes.

Lemma zip_converted_frame (cs : list Converted.t) (z : JSZip) (w : world) :
  ∃ r, for_of zip_add_converted z cs w = (r, w).
Proof.
  revert z. induction cs as [|c cs IH]; intros z; [by eexists|].
  cbn [for_of]. unfold zip_add_converted at 1. step.
  destruct (readFileSync (fs w) (Converted.path c)) as [data|e]; [apply IH|].
  by eexists.
Qed.

Section image_shape.
Variable nanoid : nat → string.
Variable sharp_toFormat : string → Buffer → option Buffer.
Variable uploadsDir : string.

(** The conversion loop never throws; it writes artifact paths only,
    and what it collects are artifact paths. *)
Lemma image_loop_frame (format : string) (fl : list file)
    (acc : list Converted.t) (w : world) :
  ∃ cf st' c',
    for_of (image_file nanoid sharp_toFormat uploadsDir format) acc fl w =
      (Ok (acc ++ cf),
       mkWorld st' (ids w + length fl) c' (cleanup_calls w) (unlink_calls w)
               (doc w) (res w) (pending w)) ∧
    (∀ q, q ∉ map Converted.path (artifacts nanoid uploadsDir format (ids w) fl) →
          st' !! q = fs w !! q) ∧
    (∀ p, p ∈ map Converted.path cf →
          p ∈ map Converted.path (artifacts nanoid uploadsDir format (ids w) fl)).
Proof.
  revert acc w. induction fl as [|f fl IH]; intros acc w.
  - exists [], (fs w), (console w). destruct w. cbn.
    rewrite app_nil_r, Nat.add_0_r. done.
  - destruct w as [st n c cc uc d r pnd]. cbn [for_of].
    unfold image_file at 1. unfold nanoid_call, sharp_toFile. step.
    fold (artifact_path uploadsDir (nanoid n) format f).
    set (a := artifact_path uploadsDir (nanoid n) format f).
    cbn [artifacts map Converted.path ids fs]. fold a.
    assert (∀ (acc' : list Converted.t) (st1 : store) (c1 : list string)
              (extra : list Converted.t),
              (∀ q, q ≠ a → st1 !! q = st !! q) →
              (∀ p, p ∈ map Converted.path extra → p = a) →
              acc' = acc ++ extra →
              ∃ cf st' c',
                for_of (image_file nanoid sharp_toFormat uploadsDir format) acc' fl
                  (mkWorld st1 (S n) c1 cc uc d r pnd) =
                  (Ok (acc ++ cf),
                   mkWorld st' (n + S (length fl)) c' cc uc d r pnd) ∧
                (∀ q, q ∉ a :: map Converted.path
                               (artifacts nanoid uploadsDir format (S n) fl) →
                      st' !! q = st !! q) ∧
                (∀ p, p ∈ map Converted.path cf →
                      p ∈ a :: map Converted.path
                                 (artifacts nanoid uploadsDir format (S n) fl)))
      as Hnext.
    { intros acc' st1 c1 extra Hst1 Hextra ->.
      destruct (IH (acc ++ extra) (mkWorld st1 (S n) c1 cc uc d r pnd))
        as (cf & st' & c' & Hrun & Hfs & Hcf).
      cbn in Hrun, Hfs, Hcf. exists (extra ++ cf), st', c'.
      rewrite Hrun, app_assoc, Nat.add_succ_r. split; [done|]. split.
      - intros q [Hne Hq]%not_elem_of_cons. rewrite Hfs by exact Hq. by apply Hst1.
      - intros p. rewrite map_app, elem_of_app, elem_of_cons.
        intros [Hp|Hp]; [left; by apply Hextra | right; by apply Hcf]. }
    unfold readFileSync.
    destruct (st !! path f) as [[data|]|] eqn:Hlook; step.
    + destruct (sharp_toFormat format data) as [out|]; step.
      * destruct (st !! a) as [[old|]|] eqn:Ha; step.
        -- apply (Hnext _ _ _ [Converted.make (originalname f)
                     (parse_name (originalname f) +:+ "." +:+ format) a]);
             [intros q Hq; by rewrite lookup_insert_ne
             | by intros p ->%list_elem_of_singleton | done].
        -- apply (Hnext _ _ _ []);
             [done | by intros p ?%elem_of_nil | by rewrite app_nil_r].
        -- apply (Hnext _ _ _ [Converted.make (originalname f)
                     (parse_name (originalname f) +:+ "." +:+ format) a]);
             [intros q Hq; by rewrite lookup_insert_ne
             | by intros p ->%list_elem_of_singleton | done].
      * apply (Hnext _ _ _ []);
          [done | by intros p ?%elem_of_nil | by rewrite app_nil_r].
    + apply (Hnext _ _ _ []);
        [done | by intros p ?%elem_of_nil | by rewrite app_nil_r].
    + apply (Hnext _ _ _ []);
        [done | by intros p ?%elem_of_nil | by rewrite app_nil_r].
Qed.

Lemma image_run_shape (req : request) (st : store) :
  answered (run_request (convert_image nanoid sharp_toFormat uploadsDir req) st) ∧
  others_untouched
    (map path (req_files req) ++
     map Converted.path (artifacts nanoid uploadsDir (format req) 0 (req_files req)))
    st (run_request (convert_image nanoid sharp_toFormat uploadsDir req) st).
Proof.
  unfold answered, others_untouched, run_request, convert_image, initial_world,
    fresh_response.
  destruct (bool_decide (toLowerCase (format req) ∈ allowedFormats)); cbn [negb]; step.
  2: { split; [split; [eauto | status_ok] | done]. }
  destruct (no_files req); step.
  { split; [split; [eauto | status_ok] | done]. }
  destruct (image_loop_frame (format req) (req_files req) []
              (mkWorld st 0 [] [] [] [] (mkResponse 200 ∅ None) []))
    as (cf & st1 & c1 & -> & Hst1 & Hcf).
  cbn in Hst1, Hcf. cbn [app].
  set (arts := map Converted.path
                 (artifacts nanoid uploadsDir (format req) 0 (req_files req))) in *.
  assert (∀ (paths : list string) (st2 : store),
            (∀ p, p ∈ paths → p ∈ map path (req_files req) ++ arts) →
            (∀ q, q ∉ paths → st2 !! q = st1 !! q) →
            ∀ q, q ∉ map path (req_files req) ++ arts → st2 !! q = st !! q)
    as Hkeep.
  { intros paths st2 Hsub Hst2 q Hq. rewrite Hst2.
    - apply Hst1. intros Hin. apply Hq, elem_of_app. by right.
    - intros Hin. by apply Hq, Hsub. }
  assert (∀ q, q ∉ map path (req_files req) ++ arts → st1 !! q = st !! q) as Hst1'.
  { intros q Hq. apply Hst1. intros Hin. apply Hq, elem_of_app. by right. }
  destruct cf as [|file1 [|file2 cf]]; step.
  - split; [split; [eauto | status_ok] | exact Hst1'].
  - cbn [app Converted.path]. step.
    edestruct (cleanupFiles_contained (map path (req_files req) ++ [Converted.path file1]))
      as (r' & st2 & uc' & -> & Hst2).
    cbn in Hst2.
    assert (∀ q, q ∉ map path (req_files req) ++ arts → st2 !! q = st !! q) as Hst2'.
    { apply (Hkeep (map path (req_files req) ++ [Converted.path file1])); [|exact Hst2].
      intros p [Hp|Hp%list_elem_of_singleton]%elem_of_app; apply elem_of_app;
        [by left|]. right. apply Hcf. subst p. left. }
    unfold drain. destruct r' as [[]|e]; step; cbn [fold_left app run_deferred]; step.
    + unfold readFileSync.
      destruct (st2 !! Converted.path file1) as [[data|]|]; step;
        (split; [split; [eauto | status_ok] | exact Hst2']).
    + split; [split; [eauto | status_ok] | exact Hst2'].
  - destruct (zip_converted_frame (file1 :: file2 :: cf) []
                (mkWorld st1 (0 + length (req_files req)) c1 [] [] []
                         (mkResponse 200 ∅ None) [])) as [r ->].
    destruct r as [z|e]; step.
    + unfold nanoid_call. step.
      edestruct (cleanupFiles_contained
                   (map path (req_files req)
                    ++ map Converted.path (file1 :: file2 :: cf)))
        as (r' & st2 & uc' & -> & Hst2).
      cbn in Hst2.
      assert (∀ q, q ∉ map path (req_files req) ++ arts → st2 !! q = st !! q) as Hst2'.
      { apply (Hkeep (map path (req_files req)
                      ++ map Converted.path (file1 :: file2 :: cf))); [|exact Hst2].
        intros p [Hp|Hp]%elem_of_app; apply elem_of_app; [by left|].
        right. by apply Hcf. }
      destruct r' as [[]|e]; step;
        (split; [split; [eauto | status_ok] | exact Hst2']).
    + split; [split; [eauto | status_ok] | exact Hst1'].
Qed.
End image_shape.

Section containment.
Variable nanoid : nat → string.
Variable sharp_metadata : Buffer → option metadata.
Variable pdfkit_image : Buffer → bool.
Variable sharp_frames : Buffer → option (list frame).
Variable sharp_toFormat : string → Buffer → option Buffer.
Variables pageWidth pageHeight : float.
Variable uploadsDir : string.

(** X22.  No conversion request is left without an answer: whatever
    the request, the store and the libraries do, each of the five routes
    ends with a response sent, with status 200, 400 or 500. *)
Theorem every_request_answered (req : request) (st : store) :
  answered (run_request (convert_zip nanoid req) st) ∧
  answered (run_request
    (convert_pdf nanoid sharp_metadata pdfkit_image pageWidth pageHeight req) st) ∧
  answered (run_request (convert_word nanoid req) st) ∧
  answered (run_request (convert_gif nanoid sharp_frames req) st) ∧
  answered (run_request (convert_image nanoid sharp_toFormat uploadsDir req) st).
Proof.
  split; [apply zip_run_shape|]. split; [apply pdf_run_shape|].
  split; [apply word_run_shape|]. split; [apply gif_run_shape|].
  apply image_run_shape.
Qed.

(** X23.  A request only ever touches its own files: after any of the
    five routes, every path that is neither an upload of the request
    nor, for the image route, one of its artifact paths holds what it
    held before, also when the route fails or the cleanup throws. *)
Theorem other_files_untouched (req : request) (st : store) :
  others_untouched (map path (req_files req)) st
    (run_request (convert_zip nanoid req) st) ∧
  others_untouched (map path (req_files req)) st (run_request
    (convert_pdf nanoid sharp_metadata pdfkit_image pageWidth pageHeight req) st) ∧
  others_untouched (map path (req_files req)) st
    (run_request (convert_word nanoid req) st) ∧
  others_untouched (map path (req_files req)) st
    (run_request (convert_gif nanoid sharp_frames req) st) ∧
  others_untouched
    (map path (req_files req) ++
     map Converted.path (artifacts nanoid uploadsDir (format req) 0 (req_files req)))
    st (run_request (convert_image nanoid sharp_toFormat uploadsDir req) st).
Proof.
  split; [apply zip_run_shape|]. split; [apply pdf_run_shape|].
  split; [apply word_run_shape|]. split; [apply gif_run_shape|].
  apply image_run_shape.
Qed.
End containment.
